(** * socket.io-parser: the text codec of [index.js]

    A shallow embedding of [Encoder] and [Decoder] of [index.js] and the
    properties of the framing grammar

      frame := TYPE [NAMESPACE ","] [ID] [PAYLOAD]

    JavaScript strings are sequences of UTF-16 code units; a Number is
    either NaN or the integer it denotes (the codec only ever builds Numbers
    from runs of decimal digits and white space, so no fraction, sign or
    exponent occurs; the embedding is exact for the integers a double holds
    exactly, see [isSafeInteger]).  The JSON serializer and parser are collaborators of the
    codec ([JSON.stringify], [yieldableJSON.parseAsync]): the codec is
    defined over an arbitrary pair of them, and [JSON] below is one instance
    used to run the codec on concrete packets. *)

From Stdlib Require Import String Ascii NArith ZArith Bool Lia List.
Import ListNotations.

Local Open Scope list_scope.

(** ** Strings *)

(** A string is the list of its UTF-16 code units. *)
Definition jsstring := list N.

(** A literal: each character of the (ASCII) literal is one code unit. *)
Definition str (s : string) : jsstring := map N_of_ascii (list_ascii_of_string s).

(** The double quote, code unit 34. *)
Definition dquote : jsstring := [34%N].

(** [s.charAt(pos)]: the one-unit string at [pos], or the empty string when
    [pos] is out of range. *)
Definition charAt (s : jsstring) (pos : nat) : jsstring :=
  match nth_error s pos with
  | Some c => [c]
  | None => []
  end.

(** [s.substr(start)] for [0 <= start]. *)
Definition substr (s : jsstring) (start : nat) : jsstring := skipn start s.

(** [a === b] on strings. *)
Fixpoint eqb_str (a b : jsstring) : bool :=
  match a, b with
  | [], [] => true
  | x :: a', y :: b' => N.eqb x y && eqb_str a' b'
  | _, _ => false
  end.

(** Truthiness of a string: every string but the empty one. *)
Definition truthy (s : jsstring) : bool :=
  match s with
  | [] => false
  | _ :: _ => true
  end.

(** ** Numbers *)

Inductive number : Type :=
| Num (n : N)
| NaN.

(** [x === y] on Numbers: NaN equals nothing. *)
Definition number_eqb (x y : number) : bool :=
  match x, y with
  | Num a, Num b => N.eqb a b
  | _, _ => false
  end.

(** [Number.isSafeInteger]: the integers below 2^53, which a double holds
    exactly and [String] prints as a plain run of decimal digits. *)
Definition isSafeInteger (n : N) : Prop := (n < 2 ^ 53)%N.

(** Code units 0-9. *)
Definition isDigit (c : N) : bool := (48 <=? c)%N && (c <=? 57)%N.

(** StrWhiteSpaceChar of the StringNumericLiteral grammar: WhiteSpace (TAB,
    VT, FF, SP, NBSP, ZWNBSP and the other space separators) and
    LineTerminator (LF, CR, LS, PS). *)
Definition isWhiteSpace (c : N) : bool :=
  ((9 <=? c) && (c <=? 13) || (c =? 32) || (c =? 160) || (c =? 5760)
   || (8192 <=? c) && (c <=? 8202) || (c =? 8232) || (c =? 8233)
   || (c =? 8239) || (c =? 8287) || (c =? 12288) || (c =? 65279))%N.

Fixpoint dropWhiteSpace (s : jsstring) : jsstring :=
  match s with
  | c :: s' => if isWhiteSpace c then dropWhiteSpace s' else s
  | [] => []
  end.

(** White space stripped at both ends. *)
Definition trim (s : jsstring) : jsstring :=
  rev (dropWhiteSpace (rev (dropWhiteSpace s))).

(** The value of a run of decimal digits. *)
Definition decimal_value (s : jsstring) : N :=
  fold_left (fun acc c => 10 * acc + (c - 48))%N s 0%N.

(** [Number(s)] (StringToNumber) on the strings the codec applies it to: a
    string of at most one code unit, or a run of digits and white space.
    Empty or all white space is 0; a run of digits between optional white
    space is its decimal value; anything else here is NaN.  (The signed,
    fractional, exponent, radix and Infinity literals all need a code unit
    that is neither a digit nor white space and at least two units, so none
    of them is reached by the codec's single-character tests; on longer
    strings holding such units this definition answers NaN.) *)
Definition ToNumber (s : jsstring) : number :=
  match trim s with
  | [] => Num 0
  | t => if forallb isDigit t then Num (decimal_value t) else NaN
  end.

(** [x == s] for a Number [x] and a string [s]: the string is converted with
    ToNumber and the Numbers are compared. *)
Definition loose_eq (x : number) (s : jsstring) : bool :=
  number_eqb x (ToNumber s).

Fixpoint digits_of (fuel : nat) (n : N) (acc : jsstring) : jsstring :=
  match fuel with
  | O => acc
  | S fuel' =>
      let acc' := (48 + n mod 10)%N :: acc in
      if (n <? 10)%N then acc' else digits_of fuel' (n / 10)%N acc'
  end.

(** The decimal digits of [n], most significant first. *)
Definition decimal (n : N) : jsstring :=
  digits_of (S (N.to_nat (N.log2 n))) n [].

(** ['' + x] for a Number: NaN, or the plain decimal digits (as [String]
    prints every integer below 10^21). *)
Definition NumberToString (x : number) : jsstring :=
  match x with
  | Num n => decimal n
  | NaN => str "NaN"
  end.

(** ** Values and packets *)

(** The JavaScript values a packet's [data] holds: the JSON values, and
    BigInt as a value [JSON.stringify] raises on. *)
#[warnings="-register-all"]
Inductive value : Type :=
| VNull
| VBool (b : bool)
| VNum (z : Z)
| VStr (s : jsstring)
| VBigInt (z : Z)
| VArr (items : list value)
| VObj (members : list (jsstring * value)).

(** [v !== false]. *)
Definition is_false (v : value) : bool :=
  match v with
  | VBool false => true
  | _ => false
  end.

(** [isArray(v)]. *)
Definition isArray (v : value) : bool :=
  match v with
  | VArr _ => true
  | _ => false
  end.

(** A packet object; [None] is a property that is not set. *)
Record packet : Type := Packet {
  type : number;
  nsp : option jsstring;
  id : option number;
  data : option value
}.

(** [exports.types] and the five type constants. *)
Definition types : list jsstring :=
  [str "CONNECT"; str "DISCONNECT"; str "EVENT"; str "ACK"; str "ERROR"].

Definition CONNECT : number := Num 0.
Definition DISCONNECT : number := Num 1.
Definition EVENT : number := Num 2.
Definition ACK : number := Num 3.
Definition ERROR : number := Num 4.

(** [exports.types[t]]: an array element, or undefined. *)
Definition types_at (t : number) : option jsstring :=
  match t with
  | Num n => nth_error types (N.to_nat n)
  | NaN => None
  end.

(** [null == x] for a property that is set or not. *)
Definition nullish {A : Type} (x : option A) : bool :=
  match x with
  | None => true
  | Some _ => false
  end.

(** What a call leaves: a value, or a raised error. *)
Inductive completion (A : Type) : Type :=
| Return (a : A)
| Throw.
Arguments Return {A} a.
Arguments Throw {A}.

(** What [_tryStringify] hands back: the result of [JSON.stringify] (a text,
    or undefined), or [false] when it raised. *)
Inductive stringified : Type :=
| SText (s : jsstring)
| SUndefined
| SFalse.

(** ** The codec *)

(** [buildError(msg)]. *)
Definition buildError (msg : jsstring) : packet :=
  {| type := ERROR;
     nsp := None;
     id := None;
     data := Some (VStr (str "parser error: " ++ msg)) |}.

(** [ERROR_PACKET]: the digit 4 and the JSON text of the string
    [encode error]. *)
Definition ERROR_PACKET : jsstring :=
  NumberToString ERROR ++ dquote ++ str "encode error" ++ dquote.

(** [payload !== false && (packet.type === exports.ERROR || isArray(payload))] *)
Definition isPayloadValid (type : number) (payload : value) : bool :=
  negb (is_false payload) && (number_eqb type ERROR || isArray payload).

(** An error object [new Error(message + operand)]. *)
Inductive error : Type :=
| Error (message : jsstring) (operand : value).

(** What a call of [add] leaves behind: the error it raised to its caller,
    if any, and the packets emitted as [decoded] events. *)
Record added : Type := Added {
  raised : option error;
  decoded : list packet
}.

Notation "'do' x <- a ; b" :=
  (match a with
   | Some x => b
   | None => None
   end) (at level 10, x pattern, a at level 100, b at level 200).

Section Codec.

(** [JSON.stringify]: a text, undefined, or a raised error. *)
Variable JSON_stringify : value -> completion (option jsstring).

(** [yieldableJSON.parseAsync]: the parsed value handed to the callback,
    or [None] when the callback gets an error.  A parser that raises, or
    never calls back, is outside this model. *)
Variable parseAsync : jsstring -> option value.

(** *** Encoder *)

Definition _tryStringify (object : value) : stringified :=
  match JSON_stringify object with
  | Return (Some s) => SText s
  | Return None => SUndefined
  | Throw => SFalse
  end.

(** [packet.nsp && '/' !== packet.nsp] *)
Definition has_custom_nsp (p : packet) : bool :=
  match nsp p with
  | Some n => truthy n && negb (eqb_str (str "/") n)
  | None => false
  end.

(** [null != packet.data] *)
Definition has_data (p : packet) : option value :=
  match data p with
  | Some VNull => None
  | d => d
  end.

Definition _encodePacket (packet : packet) : jsstring :=
  (* first is type *)
  let encodedPacket := [] ++ NumberToString (type packet) in
  (* a namespace other than "/" is appended, followed by a comma *)
  let encodedPacket :=
    if has_custom_nsp packet
    then encodedPacket ++ (match nsp packet with Some n => n | None => [] end ++ str ",")
    else encodedPacket in
  (* immediately followed by the id *)
  let encodedPacket :=
    match id packet with
    | Some i => encodedPacket ++ NumberToString i
    | None => encodedPacket
    end in
  (* json data *)
  match has_data packet with
  | Some d =>
      match _tryStringify d with
      | SFalse => ERROR_PACKET
      | SText payload => encodedPacket ++ payload
      | SUndefined => encodedPacket ++ str "undefined"
      end
  | None => encodedPacket
  end.

(** [encode(packet, callback)]: the arguments of the calls of [callback],
    in order. *)
Definition encode (packet : packet) : list (list jsstring) :=
  [[_encodePacket packet]].

(** *** Decoder *)

(** [_tryParse]: the parsed value, or [false] on an error. *)
Definition _tryParse (encodedData : jsstring) : value :=
  match parseAsync encodedData with
  | Some parsedJSON => parsedJSON
  | None => VBool false
  end.

(** The namespace loop [while (++i) { ... }], from scan position [i] with
    [nsp] accumulated so far; the result is the position and namespace at
    the [break].  [++i] is never 0, so the loop test always passes. *)
Fixpoint nsp_loop (fuel : nat) (encodedPacket : jsstring) (i : nat) (nsp : jsstring)
  : option (nat * jsstring) :=
  match fuel with
  | O => None
  | S fuel' =>
      let i := S i in
      let c := charAt encodedPacket i in
      if eqb_str (str ",") c then Some (i, nsp)
      else
        let nsp := nsp ++ c in
        if Nat.eqb i (length encodedPacket) then Some (i, nsp)
        else nsp_loop fuel' encodedPacket i nsp
  end.

(** The id loop, likewise.  [null == c] is false of every string. *)
Fixpoint id_loop (fuel : nat) (encodedPacket : jsstring) (i : nat) (id : jsstring)
  : option (nat * jsstring) :=
  match fuel with
  | O => None
  | S fuel' =>
      let i := S i in
      let c := charAt encodedPacket i in
      if false || negb (loose_eq (ToNumber c) c) then Some (Nat.pred i, id)
      else
        let id := id ++ c in
        if Nat.eqb i (length encodedPacket) then Some (i, id)
        else id_loop fuel' encodedPacket i id
  end.

(** Stage 2, "look up namespace (if any)": the new scan position and
    [packet.nsp]. *)
Definition lookup_nsp (encodedPacket : jsstring) (i : nat) : option (nat * jsstring) :=
  if eqb_str (str "/") (charAt encodedPacket 1)
  then nsp_loop (length encodedPacket) encodedPacket i []
  else Some (i, str "/").

(** Stage 3, "look up id (if any)": the new scan position and [packet.id]. *)
Definition lookup_id (encodedPacket : jsstring) (i : nat) : option (nat * option number) :=
  let next := charAt encodedPacket (i + 1) in
  if negb (eqb_str [] next) && loose_eq (ToNumber next) next
  then
    do (i, id) <- id_loop (length encodedPacket) encodedPacket i [];
    Some (i, Some (ToNumber id))
  else Some (i, None).

(** [_decodePacket]: the packet the promise resolves with; [None] only if
    a loop were to run out of fuel (it never does, [_decodePacket_total]). *)
Definition _decodePacket (encodedPacket : jsstring) : option packet :=
  let i := 0 in
  (* look up type *)
  let type := ToNumber (charAt encodedPacket 0) in
  if nullish (types_at type)
  then Some (buildError (str "unknown packet type " ++ NumberToString type))
  else
    do (i, nsp) <- lookup_nsp encodedPacket i;
    do (i, id) <- lookup_id encodedPacket i;
    (* look up json data *)
    let i := S i in
    if truthy (charAt encodedPacket i)
    then
      let payload := _tryParse (substr encodedPacket i) in
      if isPayloadValid type payload
      then Some {| type := type; nsp := Some nsp; id := id; data := Some payload |}
      else Some (buildError (str "invalid payload"))
    else Some {| type := type; nsp := Some nsp; id := id; data := None |}.

(** [add(encodedPacket)]: a string is decoded and the packet emitted; any
    other value raises. *)
Definition add (encodedPacket : value) : added :=
  match encodedPacket with
  | VStr s =>
      {| raised := None;
         decoded := match _decodePacket s with Some packet => [packet] | None => [] end |}
  | other =>
      {| raised := Some (Error (str "Unknown type: ") other); decoded := [] |}
  end.

End Codec.

(** ** A JSON instance

    One serializer and parser pair to run the codec with: JSON texts over
    null, the booleans, integers, strings, arrays and objects, as
    [JSON.stringify] prints them and [JSON.parse] reads them.  Numbers with a
    fraction or an exponent are outside this instance (its parser reports
    them as an error). *)
Module JSON.

Local Open Scope N_scope.

Definition hex (d : N) : N := if d <? 10 then 48 + d else 87 + d.

(** One code unit inside a quoted string. *)
Definition quote_unit (c : N) : jsstring :=
  if c =? 34 then [92; 34]
  else if c =? 92 then [92; 92]
  else if c =? 8 then [92; 98]
  else if c =? 12 then [92; 102]
  else if c =? 10 then [92; 110]
  else if c =? 13 then [92; 114]
  else if c =? 9 then [92; 116]
  else if c <? 32 then [92; 117; 48; 48; hex (c / 16); hex (c mod 16)]
  else [c].

Definition quote (s : jsstring) : jsstring :=
  dquote ++ flat_map quote_unit s ++ dquote.

Definition integer (z : Z) : jsstring :=
  match z with
  | Zneg p => 45 :: decimal (Npos p)
  | _ => decimal (Z.to_N z)
  end.

Fixpoint join (sep : jsstring) (l : list jsstring) : jsstring :=
  match l with
  | [] => []
  | [x] => x
  | x :: l' => x ++ sep ++ join sep l'
  end.

(** The JSON text of a value; [None] when a BigInt is met. *)
Fixpoint serialize (v : value) : option jsstring :=
  match v with
  | VNull => Some (str "null")
  | VBool true => Some (str "true")
  | VBool false => Some (str "false")
  | VNum z => Some (integer z)
  | VStr s => Some (quote s)
  | VBigInt _ => None
  | VArr items =>
      (fix elements (l : list value) (acc : list jsstring) : option jsstring :=
         match l with
         | [] => Some (str "[" ++ join (str ",") (rev acc) ++ str "]")
         | x :: l' =>
             do t <- serialize x;
             elements l' (t :: acc)
         end) items []
  | VObj members =>
      (fix properties (l : list (jsstring * value)) (acc : list jsstring)
         : option jsstring :=
         match l with
         | [] => Some (str "{" ++ join (str ",") (rev acc) ++ str "}")
         | (k, x) :: l' =>
             do t <- serialize x;
             properties l' ((quote k ++ str ":" ++ t) :: acc)
         end) members []
  end.

Definition stringify (v : value) : completion (option jsstring) :=
  match serialize v with
  | Some t => Return (Some t)
  | None => Throw
  end.

Definition isSpace (c : N) : bool :=
  (c =? 32) || (c =? 9) || (c =? 10) || (c =? 13).

Fixpoint skip (s : jsstring) : jsstring :=
  match s with
  | c :: s' => if isSpace c then skip s' else s
  | [] => []
  end.

Fixpoint strip_prefix (p s : jsstring) : option jsstring :=
  match p, s with
  | [], _ => Some s
  | x :: p', y :: s' => if x =? y then strip_prefix p' s' else None
  | _ :: _, [] => None
  end.

Fixpoint span_digits (s : jsstring) : jsstring * jsstring :=
  match s with
  | c :: s' =>
      if isDigit c then let (d, r) := span_digits s' in (c :: d, r) else ([], s)
  | [] => ([], [])
  end.

Definition parse_number (negative : bool) (s : jsstring) : option (value * jsstring) :=
  let (d, r) := span_digits s in
  let z := Z.of_N (decimal_value d) in
  let v := VNum (if negative then (- z)%Z else z) in
  match d, r with
  | [], _ => None
  | c :: d', [] => if (c =? 48) && truthy d' then None else Some (v, r)
  | c :: d', x :: _ =>
      if (c =? 48) && truthy d' then None
      else if (x =? 46) || (x =? 101) || (x =? 69) then None
      else Some (v, r)
  end.

Definition unhex (c : N) : option N :=
  if isDigit c then Some (c - 48)
  else if (97 <=? c) && (c <=? 102) then Some (c - 87)
  else if (65 <=? c) && (c <=? 70) then Some (c - 55)
  else None.

Definition unescape (e : N) : option N :=
  if (e =? 34) || (e =? 92) || (e =? 47) then Some e
  else if e =? 98 then Some 8
  else if e =? 102 then Some 12
  else if e =? 110 then Some 10
  else if e =? 114 then Some 13
  else if e =? 116 then Some 9
  else None.

(** The characters of a string up to its closing quote. *)
Fixpoint parse_chars (s : jsstring) (acc : jsstring) : option (jsstring * jsstring) :=
  match s with
  | [] => None
  | c :: r =>
      if c =? 34 then Some (rev acc, r)
      else if c =? 92 then
        match r with
        | e :: r1 =>
            if e =? 117 then
              match r1 with
              | a :: b :: c' :: d :: r2 =>
                  do a <- unhex a;
                  do b <- unhex b;
                  do c' <- unhex c';
                  do d <- unhex d;
                  parse_chars r2 ((((a * 16 + b) * 16 + c') * 16 + d) :: acc)
              | _ => None
              end
            else
              do u <- unescape e;
              parse_chars r1 (u :: acc)
        | [] => None
        end
      else if c <? 32 then None
      else parse_chars r (c :: acc)
  end.

Fixpoint parse_value (fuel : nat) (s : jsstring) : option (value * jsstring) :=
  match fuel with
  | O => None
  | S fuel' =>
      match skip s with
      | [] => None
      | c :: r =>
          if c =? 34 then
            do (t, r') <- parse_chars r [];
            Some (VStr t, r')
          else if c =? 91 then
            match strip_prefix (str "]") (skip r) with
            | Some r' => Some (VArr [], r')
            | None =>
                do (l, r') <- parse_elements fuel' r;
                Some (VArr l, r')
            end
          else if c =? 123 then
            match strip_prefix (str "}") (skip r) with
            | Some r' => Some (VObj [], r')
            | None =>
                do (l, r') <- parse_members fuel' r;
                Some (VObj l, r')
            end
          else if c =? 45 then parse_number true r
          else if isDigit c then parse_number false (c :: r)
          else
            match strip_prefix (str "null") (c :: r),
                  strip_prefix (str "true") (c :: r),
                  strip_prefix (str "false") (c :: r) with
            | Some r', _, _ => Some (VNull, r')
            | _, Some r', _ => Some (VBool true, r')
            | _, _, Some r' => Some (VBool false, r')
            | _, _, _ => None
            end
      end
  end
with parse_elements (fuel : nat) (s : jsstring) : option (list value * jsstring) :=
  match fuel with
  | O => None
  | S fuel' =>
      do (v, r) <- parse_value fuel' s;
      match skip r with
      | c :: r' =>
          if c =? 44 then
            do (l, r'') <- parse_elements fuel' r';
            Some (v :: l, r'')
          else if c =? 93 then Some ([v], r')
          else None
      | [] => None
      end
  end
with parse_members (fuel : nat) (s : jsstring)
  : option (list (jsstring * value) * jsstring) :=
  match fuel with
  | O => None
  | S fuel' =>
      do r0 <- strip_prefix dquote (skip s);
      do (k, r1) <- parse_chars r0 [];
      do r2 <- strip_prefix (str ":") (skip r1);
      do (v, r) <- parse_value fuel' r2;
      match skip r with
      | c :: r' =>
          if c =? 44 then
            do (l, r'') <- parse_members fuel' r';
            Some ((k, v) :: l, r'')
          else if c =? 125 then Some ([(k, v)], r')
          else None
      | [] => None
      end
  end.

(** A whole text: one value and nothing but white space after it. *)
Definition parse (text : jsstring) : option value :=
  do (v, r) <- parse_value (2 * length text + 2) text;
  if truthy (skip r) then None else Some v.

End JSON.

(** ** Notions used to state the properties *)

(** A code unit that [Number] does not turn into NaN: this is the test
    [Number(c) == c] of the id stage on a one-unit string. *)
Definition isNumeric (c : N) : bool := isDigit c || isWhiteSpace c.

(** A field that is set in [x] has the same value in [y]. *)
Definition present_eq {A : Type} (x y : option A) : Prop :=
  match x with
  | Some a => y = Some a
  | None => True
  end.

(** [q] equals [p] in all the fields present in [p]. *)
Definition agrees_on_present (p q : packet) : Prop :=
  type q = type p /\
  present_eq (nsp p) (nsp q) /\
  present_eq (id p) (id q) /\
  present_eq (data p) (data q).

(** A namespace as the wire grammar has it: a slash, then no comma. *)
Definition wire_nsp (n : jsstring) : Prop :=
  exists rest, n = 47%N :: rest /\ ~ In 44%N rest.

(** A payload text the decoder finds again after the type, namespace and
    id: it starts with a code unit that is no digit, no white space and no
    slash (as every JSON text of an array, an object, a string, a literal or
    a negative number does). *)
Definition payload_text (t : jsstring) : Prop :=
  exists c rest, t = c :: rest /\ isNumeric c = false /\ c <> 47%N.

(** The wire grammar, frame := TYPE [NAMESPACE ","] [ID] [PAYLOAD]: the
    frame of type digit [t] with an optional namespace, an optional id and a
    payload text (empty for none). *)
Definition nsp_segment (n : option jsstring) : jsstring :=
  match n with
  | Some n => n ++ str ","
  | None => []
  end.

Definition id_segment (k : option N) : jsstring :=
  match k with
  | Some m => decimal m
  | None => []
  end.

Definition wire_frame (t : N) (n : option jsstring) (k : option N) (payload : jsstring)
  : jsstring :=
  [(48 + t)%N] ++ nsp_segment n ++ id_segment k ++ payload.

(** The packets the wire grammar carries faithfully, for a serializer and a
    parser: a known type [t]; a namespace that is absent or a wire
    namespace; an id that is absent or a safe integer; data that is absent,
    or a value other than null and false that is an array unless the type is
    ERROR, whose text is a payload text the parser reads back. *)
Definition sendable (JSON_stringify : value -> completion (option jsstring))
           (parseAsync : jsstring -> option value) (p : packet) (t : N) : Prop :=
  type p = Num t /\ (t <= 4)%N /\
  (forall n, nsp p = Some n -> wire_nsp n) /\
  (forall x, id p = Some x -> exists k, x = Num k /\ isSafeInteger k) /\
  (forall d, data p = Some d ->
     d <> VNull /\ is_false d = false /\ (t = 4%N \/ isArray d = true) /\
     exists text,
       JSON_stringify d = Return (Some text) /\ payload_text text /\
       parseAsync text = Some d).

(** [p] with its id, or its namespace, not set. *)
Definition without_id (p : packet) : packet :=
  {| type := type p; nsp := nsp p; id := None; data := data p |}.

Definition without_nsp (p : packet) : packet :=
  {| type := type p; nsp := None; id := id p; data := data p |}.

(** The namespace a packet's frame shows: its own when it is a string other
    than the empty one and the default one. *)
Definition nsp_on_wire (p : packet) : option jsstring :=
  if has_custom_nsp p then nsp p else None.

(** The text of a packet's id in its frame. *)
Definition id_segment_of (p : packet) : jsstring :=
  match id p with
  | Some x => NumberToString x
  | None => []
  end.

(** The namespace a packet shows after decoding: its own, or the default. *)
Definition nsp_or_default (n : option jsstring) : jsstring :=
  match n with
  | Some x => x
  | None => str "/"
  end.

(** *** A reference decoder

    The frame read by its grammar, with no scan position: the type is the
    first code unit; when the next one is a slash the namespace is the text
    up to the first comma (or to the end of the frame), and the scan goes on
    after that comma; the id is the longest run of code units that [Number]
    accepts; the payload is what is left. *)

Fixpoint take_while (f : N -> bool) (s : jsstring) : jsstring :=
  match s with
  | c :: s' => if f c then c :: take_while f s' else []
  | [] => []
  end.

Fixpoint drop_while (f : N -> bool) (s : jsstring) : jsstring :=
  match s with
  | c :: s' => if f c then drop_while f s' else s
  | [] => []
  end.

Definition not_comma (c : N) : bool := negb (c =? 44)%N.

(** The namespace of the text after the type, and the text after it. *)
Definition scan_nsp (body : jsstring) : jsstring * jsstring :=
  match body with
  | c :: _ =>
      if (c =? 47)%N
      then (take_while not_comma body, skipn 1 (drop_while not_comma body))
      else (str "/", body)
  | [] => (str "/", [])
  end.

(** The id at the head of a text, and the text after it. *)
Definition scan_id (rest : jsstring) : option number * jsstring :=
  match take_while isNumeric rest with
  | [] => (None, rest)
  | run => (Some (ToNumber run), drop_while isNumeric rest)
  end.

Definition reference_decode (parseAsync : jsstring -> option value) (frame : jsstring)
  : packet :=
  let type := ToNumber (firstn 1 frame) in
  if nullish (types_at type)
  then buildError (str "unknown packet type " ++ NumberToString type)
  else
    let (nsp, rest) := scan_nsp (skipn 1 frame) in
    let (id, payload) := scan_id rest in
    match payload with
    | [] => {| type := type; nsp := Some nsp; id := id; data := None |}
    | _ :: _ =>
        if isPayloadValid type (_tryParse parseAsync payload)
        then {| type := type; nsp := Some nsp; id := id;
                data := Some (_tryParse parseAsync payload) |}
        else buildError (str "invalid payload")
    end.

(** [p] with its data not set. *)
Definition without_data (p : packet) : packet :=
  {| type := type p; nsp := nsp p; id := id p; data := None |}.

(** [p] with the namespace it shows after decoding. *)
Definition with_default_nsp (p : packet) : packet :=
  {| type := type p; nsp := Some (nsp_or_default (nsp p)); id := id p; data := data p |}.

(** ** Sample packets *)

(** An event on a namespace, with an id and two arguments. *)
Definition project_delete : packet :=
  {| type := EVENT;
     nsp := Some (str "/admin");
     id := Some (Num 456);
     data := Some (VArr [VStr (str "project:delete"); VNum 123]) |}.

(** An error packet whose data is a number, without and with the id 0. *)
Definition error_five : packet :=
  {| type := ERROR; nsp := Some (str "/"); id := None; data := Some (VNum 5) |}.

Definition error_five_id0 : packet :=
  {| type := ERROR; nsp := Some (str "/"); id := Some (Num 0); data := Some (VNum 5) |}.

(** An acknowledgement with id 0 on the default namespace. *)
Definition ack_zero : packet :=
  {| type := ACK; nsp := Some (str "/"); id := Some (Num 0); data := Some (VArr [VBool true]) |}.

(** The packets and frames of the documented examples. *)
Definition hello_event : packet :=
  {| type := EVENT; nsp := None; id := None; data := Some (VArr [VStr (str "hello")]) |}.

Definition hello_frame : jsstring :=
  str "2[" ++ dquote ++ str "hello" ++ dquote ++ str "]".

Definition admin_connect : packet :=
  {| type := CONNECT; nsp := Some (str "/admin"); id := None; data := None |}.

Definition project_delete_frame : jsstring :=
  str "2/admin,456[" ++ dquote ++ str "project:delete" ++ dquote ++ str ",123]".

(** The event hello on the default namespace, written out. *)
Definition hello_event_default : packet :=
  {| type := EVENT; nsp := Some (str "/"); id := None;
     data := Some (VArr [VStr (str "hello")]) |}.

(** A packet of a type that is none of the five, and an event whose data
    is null. *)
Definition type_seven : packet :=
  {| type := Num 7; nsp := Some (str "/admin"); id := Some (Num 1);
     data := Some (VArr []) |}.

Definition null_event : packet :=
  {| type := EVENT; nsp := None; id := Some (Num 3); data := Some VNull |}.

(** An event whose data holds a BigInt. *)
Definition big_event : packet :=
  {| type := EVENT; nsp := None; id := None; data := Some (VArr [VBigInt 1]) |}.

(** A sample packet is sendable: each condition is computed. *)
Ltac sendable_by_computation :=
  unfold sendable; cbn [type nsp id data];
  split; [reflexivity|];
  split; [vm_compute; discriminate|];
  split; [intros ? [= <-]; eexists; split; [reflexivity | vm_compute; intuition discriminate]
         | ];
  split; [intros ? E; try discriminate E; injection E as <-;
          eexists; split; [reflexivity | reflexivity]
         | ];
  intros ? E; try discriminate E; injection E as <-;
  split; [discriminate|]; split; [reflexivity|];
  split; [first [left; reflexivity | right; reflexivity]|];
  eexists; split; [vm_compute; reflexivity|];
  split; [eexists; eexists; split; [reflexivity | split; [reflexivity | discriminate]]
         | vm_compute; reflexivity].

(** The same for a sample packet in which some fields are not set. *)
Ltac sendable_by_cases :=
  unfold sendable; cbn [type nsp id data without_data];
  split; [reflexivity|];
  split; [vm_compute; discriminate|];
  split; [intros ? E;
          first [discriminate E
                | injection E as <-; eexists;
                  split; [reflexivity | vm_compute; intuition discriminate]]|];
  split; [intros ? E;
          first [discriminate E
                | injection E as <-; eexists; split; reflexivity]|];
  intros ? E;
  first [discriminate E
        | injection E as <-;
          split; [discriminate|]; split; [reflexivity|];
          split; [first [left; reflexivity | right; reflexivity]|];
          eexists; split; [vm_compute; reflexivity|];
          split; [eexists; eexists;
                  split; [reflexivity | split; [reflexivity | discriminate]]
                 | vm_compute; reflexivity]].

(** ** Strings and numbers: basic facts *)

Lemma eqb_str_eq (a b : jsstring) : eqb_str a b = true <-> a = b.
Proof.
  revert b; induction a as [|x a IH]; intros [|y b]; simpl; split;
    try discriminate; try reflexivity.
  - rewrite andb_true_iff, N.eqb_eq, IH. intros [-> ->]. reflexivity.
  - intros [= -> ->]. rewrite N.eqb_refl. simpl. apply IH. reflexivity.
Qed.

Lemma eqb_str_neq (a b : jsstring) : eqb_str a b = false <-> a <> b.
Proof.
  rewrite <- eqb_str_eq. destruct (eqb_str a b); split; congruence.
Qed.

Lemma charAt_middle (pre : jsstring) (c : N) (rest : jsstring) :
  charAt (pre ++ c :: rest) (length pre) = [c].
Proof.
  unfold charAt. rewrite nth_error_app2 by lia.
  rewrite Nat.sub_diag. reflexivity.
Qed.

Lemma charAt_beyond (s : jsstring) (i : nat) :
  length s <= i -> charAt s i = [].
Proof.
  intros H. unfold charAt.
  destruct (nth_error s i) eqn:E; [|reflexivity].
  apply nth_error_None in H. congruence.
Qed.

Lemma charAt_inside (s : jsstring) (i : nat) :
  charAt s i <> [] -> i < length s.
Proof.
  intros H. destruct (Nat.lt_ge_cases i (length s)) as [L|L]; [exact L|].
  elim H. apply charAt_beyond. exact L.
Qed.

Lemma digit_range (c : N) : isDigit c = true <-> (48 <= c <= 57)%N.
Proof.
  unfold isDigit. rewrite andb_true_iff, !N.leb_le. reflexivity.
Qed.

Lemma digit_not_space (c : N) : isDigit c = true -> isWhiteSpace c = false.
Proof.
  rewrite digit_range. intros H.
  assert (E : (c = 48 \/ c = 49 \/ c = 50 \/ c = 51 \/ c = 52 \/ c = 53 \/
               c = 54 \/ c = 55 \/ c = 56 \/ c = 57)%N) by lia.
  repeat (destruct E as [-> | E]; [reflexivity|]). subst c. reflexivity.
Qed.

Lemma ToNumber_unit (c : N) :
  ToNumber [c] =
  if isWhiteSpace c then Num 0
  else if isDigit c then Num (c - 48) else NaN.
Proof.
  unfold ToNumber, trim. cbn [dropWhiteSpace].
  destruct (isWhiteSpace c) eqn:W.
  - reflexivity.
  - cbn [rev app dropWhiteSpace]. rewrite W. cbn [rev app forallb].
    rewrite andb_true_r. destruct (isDigit c); [|reflexivity].
    unfold decimal_value. cbn [fold_left]. f_equal.
Qed.

(** The id stage's test on one code unit. *)
Lemma loose_eq_unit (c : N) : loose_eq (ToNumber [c]) [c] = isNumeric c.
Proof.
  unfold loose_eq, isNumeric. rewrite ToNumber_unit.
  destruct (isWhiteSpace c) eqn:W.
  - rewrite orb_true_r. reflexivity.
  - destruct (isDigit c); simpl; [apply N.eqb_refl | reflexivity].
Qed.

Lemma dropWhiteSpace_digits (ds : jsstring) :
  Forall (fun c => isDigit c = true) ds -> dropWhiteSpace ds = ds.
Proof.
  intros [|c ds' H _]; [reflexivity|].
  simpl. rewrite (digit_not_space c H). reflexivity.
Qed.

Lemma ToNumber_digits (ds : jsstring) :
  ds <> [] -> Forall (fun c => isDigit c = true) ds ->
  ToNumber ds = Num (decimal_value ds).
Proof.
  intros NE H. unfold ToNumber, trim.
  rewrite (dropWhiteSpace_digits ds H).
  rewrite dropWhiteSpace_digits by (apply Forall_rev; exact H).
  rewrite rev_involutive.
  destruct ds as [|c ds']; [congruence|].
  rewrite Forall_forall in H.
  rewrite (proj2 (forallb_forall isDigit (c :: ds')) H). reflexivity.
Qed.

(** *** Decimal digits *)

Lemma digit_below_ten (m : N) : (m < 10)%N -> isDigit (48 + m) = true.
Proof.
  intros H. apply digit_range. lia.
Qed.

Lemma digits_of_spec (fuel : nat) :
  forall (n : N) (acc : jsstring),
    (n < 2 ^ N.of_nat fuel)%N -> 0 < fuel ->
    exists ds,
      digits_of fuel n acc = ds ++ acc /\
      ds <> [] /\
      Forall (fun c => isDigit c = true) ds /\
      decimal_value ds = n.
Proof.
  induction fuel as [|f IH]; intros n acc B P; [lia|].
  cbn [digits_of].
  assert (D : isDigit (48 + n mod 10) = true).
  { apply digit_below_ten. apply N.mod_upper_bound. discriminate. }
  destruct (N.ltb_spec n 10) as [L|L].
  - exists [(48 + n mod 10)%N]. repeat split.
    + discriminate.
    + constructor; [exact D | constructor].
    + unfold decimal_value. cbn [fold_left].
      rewrite N.mod_small by exact L. lia.
  - assert (Q : (n / 10 < 2 ^ N.of_nat f)%N).
    { rewrite Nat2N.inj_succ, N.pow_succ_r' in B.
      apply N.Div0.div_lt_upper_bound. lia. }
    assert (F : 0 < f).
    { destruct f; [|lia]. simpl in B. lia. }
    destruct (IH (n / 10)%N ((48 + n mod 10)%N :: acc) Q F)
      as (ds & E & NE & A & V).
    exists (ds ++ [(48 + n mod 10)%N]). repeat split.
    + rewrite E, <- app_assoc. reflexivity.
    + destruct ds; discriminate.
    + apply Forall_app. split; [exact A|]. constructor; [exact D | constructor].
    + unfold decimal_value in *. rewrite fold_left_app, V. cbn [fold_left].
      assert (M : n = (10 * (n / 10) + n mod 10)%N)
        by (apply N.div_mod; discriminate).
      revert M. generalize (n / 10)%N (n mod 10)%N. intros q r M. lia.
Qed.

Lemma decimal_spec (n : N) :
  decimal n <> [] /\
  Forall (fun c => isDigit c = true) (decimal n) /\
  decimal_value (decimal n) = n.
Proof.
  unfold decimal.
  destruct (digits_of_spec (S (N.to_nat (N.log2 n))) n []) as (ds & E & NE & A & V).
  - rewrite Nat2N.inj_succ, N2Nat.id.
    destruct (N.eq_dec n 0) as [->|Z]; [reflexivity|].
    apply N.log2_spec. lia.
  - lia.
  - rewrite E, app_nil_r. auto.
Qed.

(** [Number(String(n))] is [n]. *)
Lemma ToNumber_decimal (n : N) : ToNumber (decimal n) = Num n.
Proof.
  destruct (decimal_spec n) as (NE & A & V).
  rewrite ToNumber_digits by assumption. rewrite V. reflexivity.
Qed.

(** The five type digits. *)
Lemma decimal_type (t : N) : (t <= 4)%N -> decimal t = [(48 + t)%N].
Proof.
  intros H.
  assert (E : (t = 0 \/ t = 1 \/ t = 2 \/ t = 3 \/ t = 4)%N) by lia.
  repeat (destruct E as [-> | E]; [reflexivity|]). subst t. reflexivity.
Qed.

Lemma types_at_known (x : number) :
  nullish (types_at x) = false <-> exists t, x = Num t /\ (t <= 4)%N.
Proof.
  split.
  - destruct x as [n|]; [|discriminate]. intros H. exists n. split; [reflexivity|].
    unfold types_at in H.
    destruct (nth_error types (N.to_nat n)) eqn:E; [|discriminate].
    assert (L : N.to_nat n < length types) by (apply nth_error_Some; congruence).
    simpl in L. lia.
  - intros (t & -> & H).
    assert (E : (t = 0 \/ t = 1 \/ t = 2 \/ t = 3 \/ t = 4)%N) by lia.
    repeat (destruct E as [-> | E]; [reflexivity|]). subst t. reflexivity.
Qed.

(** ** The scanning loops *)

(** Both loops end: from a position inside the frame, fuel for the rest of
    the frame is enough. *)
Lemma nsp_loop_total (fuel : nat) :
  forall (s : jsstring) (i : nat) (acc : jsstring),
    i < length s -> length s - i <= fuel ->
    exists r, nsp_loop fuel s i acc = Some r.
Proof.
  induction fuel as [|f IH]; intros s i acc L F; [lia|].
  cbn [nsp_loop].
  destruct (eqb_str (str ",") (charAt s (S i))); [eauto|].
  destruct (Nat.eqb_spec (S i) (length s)); [eauto|].
  apply IH; lia.
Qed.

Lemma id_loop_total (fuel : nat) :
  forall (s : jsstring) (i : nat) (acc : jsstring),
    i < length s -> length s - i <= fuel ->
    exists r, id_loop fuel s i acc = Some r.
Proof.
  induction fuel as [|f IH]; intros s i acc L F; [lia|].
  cbn [id_loop].
  destruct (false || negb (loose_eq (ToNumber (charAt s (S i))) (charAt s (S i))));
    [eauto|].
  destruct (Nat.eqb_spec (S i) (length s)); [eauto|].
  apply IH; lia.
Qed.

Lemma lookup_nsp_total (s : jsstring) :
  exists i n, lookup_nsp s 0 = Some (i, n).
Proof.
  unfold lookup_nsp.
  destruct (eqb_str (str "/") (charAt s 1)) eqn:E; [|eauto].
  apply eqb_str_eq in E.
  assert (L : 1 < length s) by (apply charAt_inside; rewrite <- E; discriminate).
  destruct (nsp_loop_total (length s) s 0 []) as [[i n] H]; [lia | lia |].
  rewrite H. eauto.
Qed.

Lemma lookup_id_total (s : jsstring) (i : nat) :
  exists j k, lookup_id s i = Some (j, k).
Proof.
  unfold lookup_id.
  destruct (eqb_str [] (charAt s (i + 1))) eqn:E; cbn [negb andb]; [eauto|].
  destruct (loose_eq _ _); [|eauto].
  apply eqb_str_neq in E.
  assert (L : i + 1 < length s) by (apply charAt_inside; congruence).
  destruct (id_loop_total (length s) s i []) as [[j ds] H]; [lia | lia |].
  rewrite H. eauto.
Qed.

Lemma charAt_after (pre : jsstring) (c : N) (rest : jsstring) (i : nat) :
  length pre = i -> charAt (pre ++ c :: rest) i = [c].
Proof.
  intros <-. apply charAt_middle.
Qed.

Lemma not_at_end (pre : jsstring) (c : N) (rest : jsstring) (i : nat) :
  length pre = i -> Nat.eqb i (length (pre ++ c :: rest)) = false.
Proof.
  intros <-. apply Nat.eqb_neq. rewrite length_app. simpl. lia.
Qed.

Lemma substr_after (pre rest : jsstring) (i : nat) :
  length pre = i -> substr (pre ++ rest) i = rest.
Proof.
  intros <-. unfold substr. rewrite skipn_app, skipn_all, Nat.sub_diag. reflexivity.
Qed.

Lemma snoc_app (pre : jsstring) (c : N) (rest : jsstring) :
  pre ++ c :: rest = (pre ++ [c]) ++ rest.
Proof.
  rewrite <- app_assoc. reflexivity.
Qed.

(** The namespace loop on a namespace that ends with its comma: it stops on
    the comma with the text before it. *)
Lemma nsp_loop_comma (n : jsstring) :
  forall (fuel : nat) (pre tail acc : jsstring) (i : nat),
    length pre = S i -> ~ In 44%N n -> length n < fuel ->
    nsp_loop fuel (pre ++ n ++ 44%N :: tail) i acc = Some (S i + length n, acc ++ n).
Proof.
  induction n as [|c n IH]; intros fuel pre tail acc i P C F;
    (destruct fuel as [|f]; [simpl in F; lia|]); cbn [nsp_loop app].
  - rewrite (charAt_after pre 44 tail (S i) P).
    change (eqb_str (str ",") [44%N]) with true. cbn iota.
    rewrite app_nil_r, Nat.add_0_r. reflexivity.
  - rewrite (charAt_after pre c _ (S i) P), (not_at_end pre c _ (S i) P).
    assert (c <> 44%N) by (intros ->; apply C; left; reflexivity).
    replace (eqb_str (str ",") [c]) with false
      by (symmetry; apply eqb_str_neq; change (str ",") with [44%N]; congruence).
    rewrite snoc_app, IH.
    + rewrite <- app_assoc. simpl. f_equal. f_equal. lia.
    + rewrite length_app. simpl. lia.
    + intros I. apply C. right. exact I.
    + simpl in F. lia.
Qed.

(** The id loop on a run of digits followed by a code unit that [Number]
    rejects: it stops on the last digit. *)
Lemma id_loop_stop (ds : jsstring) :
  forall (fuel : nat) (pre tail acc : jsstring) (c : N) (i : nat),
    length pre = S i -> Forall (fun d => isDigit d = true) ds ->
    isNumeric c = false -> length ds < fuel ->
    id_loop fuel (pre ++ ds ++ c :: tail) i acc = Some (i + length ds, acc ++ ds).
Proof.
  induction ds as [|d ds IH]; intros fuel pre tail acc c i P D C F;
    (destruct fuel as [|f]; [simpl in F; lia|]); cbn [id_loop app].
  - rewrite (charAt_after pre c tail (S i) P), loose_eq_unit, C.
    simpl. rewrite app_nil_r, Nat.add_0_r. reflexivity.
  - rewrite (charAt_after pre d _ (S i) P), (not_at_end pre d _ (S i) P).
    inversion D as [|? ? Dd Dds]; subst.
    rewrite loose_eq_unit. unfold isNumeric at 1. rewrite Dd. cbn [orb negb].
    rewrite snoc_app, IH with (i := S i).
    + rewrite <- app_assoc. simpl. f_equal. f_equal. lia.
    + rewrite length_app. simpl. lia.
    + exact Dds.
    + exact C.
    + simpl in F. lia.
Qed.

(** The id loop on a run of digits that ends the frame: it stops one past
    the last digit, at the frame's length. *)
Lemma id_loop_end (ds : jsstring) :
  forall (fuel : nat) (pre acc : jsstring) (i : nat),
    length pre = S i -> Forall (fun d => isDigit d = true) ds ->
    length ds < fuel ->
    id_loop fuel (pre ++ ds) i acc = Some (S i + length ds, acc ++ ds).
Proof.
  induction ds as [|d ds IH]; intros fuel pre acc i P D F;
    (destruct fuel as [|f]; [simpl in F; lia|]); cbn [id_loop].
  - rewrite app_nil_r. rewrite charAt_beyond by lia.
    cbn. rewrite P, Nat.eqb_refl, app_nil_r, Nat.add_0_r. reflexivity.
  - rewrite (charAt_after pre d _ (S i) P), (not_at_end pre d _ (S i) P).
    inversion D as [|? ? Dd Dds]; subst.
    rewrite loose_eq_unit. unfold isNumeric. rewrite Dd. cbn [orb negb].
    rewrite snoc_app, IH with (i := S i).
    + rewrite <- app_assoc. simpl. f_equal. f_equal. lia.
    + rewrite length_app. simpl. lia.
    + exact Dds.
    + simpl in F. lia.
Qed.

(** ** Decoding a frame of the wire grammar *)

Lemma lookup_nsp_default (s : jsstring) (i : nat) :
  charAt s 1 <> str "/" -> lookup_nsp s i = Some (i, str "/").
Proof.
  intros H. unfold lookup_nsp.
  replace (eqb_str (str "/") (charAt s 1)) with false; [reflexivity|].
  symmetry. apply eqb_str_neq. congruence.
Qed.

Lemma lookup_nsp_wire (tc : N) (n tail : jsstring) :
  wire_nsp n ->
  lookup_nsp (tc :: n ++ 44%N :: tail) 0 = Some (S (length n), n).
Proof.
  intros (rest & -> & C). unfold lookup_nsp.
  change (charAt (tc :: (47%N :: rest) ++ 44%N :: tail) 1) with [47%N].
  change (eqb_str (str "/") [47%N]) with true. cbn iota.
  apply (nsp_loop_comma (47%N :: rest) _ [tc] tail [] 0).
  - reflexivity.
  - intros [E|I]; [discriminate | exact (C I)].
  - simpl. rewrite length_app. simpl. lia.
Qed.

(** Stages 3 and 4 of the scan on a run of digits that ends the frame or is
    followed by a code unit that is neither a digit nor white space: the id
    is the value of the run, and the payload is what follows it. *)
Lemma lookup_id_digits (pre ds rest : jsstring) (i : nat) :
  length pre = S i ->
  ds <> [] -> Forall (fun d => isDigit d = true) ds ->
  rest = [] \/ (exists c r, rest = c :: r /\ isNumeric c = false) ->
  exists j,
    lookup_id (pre ++ ds ++ rest) i = Some (j, Some (Num (decimal_value ds))) /\
    charAt (pre ++ ds ++ rest) (S j) = firstn 1 rest /\
    substr (pre ++ ds ++ rest) (S j) = rest.
Proof.
  intros P NE D W. unfold lookup_id. rewrite Nat.add_1_r.
  destruct ds as [|d ds]; [congruence|].
  assert (Dd : isDigit d = true) by (inversion D; assumption).
  cbn [app]. rewrite (charAt_after pre d _ (S i) P), loose_eq_unit.
  unfold isNumeric at 1. rewrite Dd. cbn [eqb_str negb andb orb].
  destruct W as [-> | (c & r & -> & C)].
  - rewrite app_nil_r.
    rewrite (id_loop_end (d :: ds) _ pre [] i P D)
      by (rewrite length_app; lia).
    exists (S i + length (d :: ds)). cbn [app].
    rewrite (ToNumber_digits (d :: ds) NE D).
    split; [reflexivity|]. split.
    + apply charAt_beyond. rewrite length_app. lia.
    + unfold substr. apply skipn_all2. rewrite length_app. lia.
  - change (pre ++ d :: ds ++ c :: r) with (pre ++ (d :: ds) ++ c :: r).
    rewrite (id_loop_stop (d :: ds) _ pre r [] c i P D C)
      by (rewrite !length_app; simpl; lia).
    exists (i + length (d :: ds)). cbn [app].
    rewrite (ToNumber_digits (d :: ds) NE D).
    split; [reflexivity|].
    change (pre ++ d :: ds ++ c :: r) with (pre ++ (d :: ds) ++ c :: r).
    rewrite app_assoc.
    assert (L : length (pre ++ d :: ds) = S (i + length (d :: ds)))
      by (rewrite length_app; lia).
    split.
    + apply charAt_after. exact L.
    + apply substr_after. exact L.
Qed.

(** X4. The id scan on digits: after the type and namespace, a run of
    decimal digits whose value is a safe integer, and that ends the frame or
    is followed by a code unit that is neither a digit nor white space, is
    read as the id, the value of the run, and the scan goes on right after
    the run. *)
Theorem id_scan_on_digits (pre ds rest : jsstring) (i : nat) :
  length pre = S i ->
  ds <> [] -> Forall (fun d => isDigit d = true) ds ->
  isSafeInteger (decimal_value ds) ->
  rest = [] \/ (exists c r, rest = c :: r /\ isNumeric c = false) ->
  exists j,
    lookup_id (pre ++ ds ++ rest) i = Some (j, Some (Num (decimal_value ds))) /\
    charAt (pre ++ ds ++ rest) (S j) = firstn 1 rest /\
    substr (pre ++ ds ++ rest) (S j) = rest.
Proof.
  intros P NE D _. exact (lookup_id_digits pre ds rest i P NE D).
Qed.

(** The same on the optional id of a frame of the wire grammar. *)
Lemma lookup_id_wire (pre : jsstring) (k : option N) (payload : jsstring) (i : nat) :
  length pre = S i ->
  payload = [] \/ payload_text payload ->
  exists j,
    lookup_id (pre ++ id_segment k ++ payload) i
    = Some (j, option_map Num k) /\
    charAt (pre ++ id_segment k ++ payload) (S j)
    = firstn 1 payload /\
    substr (pre ++ id_segment k ++ payload) (S j)
    = payload.
Proof.
  intros P W.
  destruct k as [m|]; cbn [option_map id_segment].
  - destruct (decimal_spec m) as (NE & D & V).
    assert (W' : payload = [] \/ (exists c r, payload = c :: r /\ isNumeric c = false)).
    { destruct W as [-> | (c & r & -> & C & _)]; [left; reflexivity|].
      right. exists c, r. split; [reflexivity | exact C]. }
    destruct (lookup_id_digits pre (decimal m) payload i P NE D W')
      as (j & E1 & E2 & E3).
    exists j. rewrite E1, V. auto.
  - unfold lookup_id. rewrite Nat.add_1_r. cbn [app]. exists i.
    destruct W as [-> | (c & rest & -> & C & _)].
    + rewrite app_nil_r. rewrite (charAt_beyond pre (S i)) by lia.
      cbn [eqb_str negb andb]. split; [reflexivity|]. split; [reflexivity|].
      unfold substr. apply skipn_all2. lia.
    + rewrite (charAt_after pre c rest (S i) P), loose_eq_unit, C.
      cbn [eqb_str negb andb firstn]. split; [reflexivity|]. split; [reflexivity|].
      apply substr_after. exact P.
Qed.

Lemma type_digit (t : N) :
  (t <= 4)%N -> ToNumber [(48 + t)%N] = Num t.
Proof.
  intros H. rewrite ToNumber_unit.
  assert (D : isDigit (48 + t) = true) by (apply digit_below_ten; lia).
  rewrite (digit_not_space _ D), D. f_equal. lia.
Qed.

Lemma wire_no_slash (tc : N) (k : option N) (payload : jsstring) :
  payload = [] \/ payload_text payload ->
  charAt (tc :: id_segment k ++ payload) 1
  <> str "/".
Proof.
  intros W. unfold charAt. cbn [nth_error].
  destruct k as [m|]; cbn [id_segment].
  - destruct (decimal_spec m) as (NE & D & _).
    destruct (decimal m) as [|d ds]; [congruence|].
    cbn. intros [= E]. inversion D as [|? ? Dd _]; subst.
    discriminate Dd.
  - cbn [app]. destruct W as [-> | (c & rest & -> & _ & C)].
    + discriminate.
    + cbn. intros [= E]. exact (C E).
Qed.

Section Properties.

Variable JSON_stringify : value -> completion (option jsstring).
Variable parseAsync : jsstring -> option value.

(** What the decoder makes of a frame of the wire grammar: the type,
    namespace and id are read back, and the payload text is parsed and
    checked. *)
Lemma decode_wire_frame (t : N) (n : option jsstring) (k : option N)
      (payload : jsstring) :
  (t <= 4)%N ->
  (forall x, n = Some x -> wire_nsp x) ->
  payload = [] \/ payload_text payload ->
  _decodePacket parseAsync (wire_frame t n k payload) =
  Some (let header (d : option value) :=
          {| type := Num t;
             nsp := Some (nsp_or_default n);
             id := option_map Num k;
             data := d |} in
        match payload with
        | [] => header None
        | _ :: _ =>
            if isPayloadValid (Num t) (_tryParse parseAsync payload)
            then header (Some (_tryParse parseAsync payload))
            else buildError (str "invalid payload")
        end).
Proof.
  intros T Wn Wp. unfold _decodePacket, wire_frame.
  cbn [app]. change (charAt ((48 + t)%N :: _) 0) with [(48 + t)%N].
  rewrite (type_digit t T).
  rewrite (proj2 (types_at_known (Num t))) by eauto.
  assert (S2 : exists pre i,
             (48 + t)%N :: nsp_segment n ++ id_segment k ++ payload
             = pre ++ id_segment k ++ payload /\
             length pre = S i /\
             lookup_nsp (pre ++ id_segment k ++ payload) 0
             = Some (i, nsp_or_default n)).
  { destruct n as [x|]; cbn [nsp_segment nsp_or_default].
    - exists ((48 + t)%N :: x ++ [44%N]), (S (length x)).
      change (str ",") with [44%N]. split; [reflexivity|]. split.
      + cbn [length]. rewrite length_app. simpl. lia.
      + cbn [app]. rewrite <- app_assoc. cbn [app].
        apply lookup_nsp_wire. apply Wn. reflexivity.
    - exists [(48 + t)%N], 0. split; [reflexivity|]. split; [reflexivity|].
      apply lookup_nsp_default. apply wire_no_slash. exact Wp. }
  destruct S2 as (pre & i & -> & P & ->).
  destruct (lookup_id_wire pre k payload i P Wp) as (j & -> & -> & ->).
  destruct payload as [|c rest]; [reflexivity|]. cbn [firstn truthy].
  destruct (isPayloadValid _ _); reflexivity.
Qed.

(** The frame of a sendable packet, by the wire grammar. *)
Lemma encode_sendable (p : packet) (t : N) :
  sendable JSON_stringify parseAsync p t ->
  exists k text,
    _encodePacket JSON_stringify p = wire_frame t (nsp_on_wire p) k text /\
    (forall x, nsp_on_wire p = Some x -> wire_nsp x) /\
    nsp_or_default (nsp_on_wire p) = nsp_or_default (nsp p) /\
    option_map Num k = id p /\
    (text = [] \/ payload_text text) /\
    (match data p with
     | Some d => JSON_stringify d = Return (Some text) /\
                 parseAsync text = Some d /\ text <> [] /\
                 isPayloadValid (Num t) d = true
     | None => text = []
     end).
Proof.
  intros (T & B & Wn & Wi & Wd).
  unfold _encodePacket, wire_frame. rewrite T. cbn [NumberToString app].
  rewrite (decimal_type t B).
  assert (K : exists k, id p = option_map Num k).
  { destruct (id p) as [x|] eqn:E.
    - destruct (Wi x eq_refl) as (k & -> & _). exists (Some k). reflexivity.
    - exists None. reflexivity. }
  destruct K as [k K]. exists k.
  assert (D : exists text,
             match has_data p with
             | Some d =>
                 match _tryStringify JSON_stringify d with
                 | SFalse => None
                 | SText payload => Some payload
                 | SUndefined => Some (str "undefined")
                 end
             | None => Some []
             end = Some text /\
             (text = [] \/ payload_text text) /\
             match data p with
             | Some d => JSON_stringify d = Return (Some text) /\
                         parseAsync text = Some d /\ text <> [] /\
                         isPayloadValid (Num t) d = true
             | None => text = []
             end).
  { destruct (data p) as [d|] eqn:E.
    - destruct (Wd d eq_refl) as (NN & NF & A & text & S & W & R).
      assert (HD : has_data p = Some d)
        by (unfold has_data; rewrite E; destruct d; congruence).
      exists text. rewrite HD. unfold _tryStringify. rewrite S.
      split; [reflexivity|]. split; [right; exact W|].
      split; [reflexivity|]. split; [exact R|].
      split; [destruct W as (c & r & -> & _); discriminate|].
      unfold isPayloadValid. rewrite NF. cbn [negb andb].
      destruct A as [-> | ->]; [reflexivity | apply orb_true_r].
    - exists []. unfold has_data. rewrite E. auto. }
  destruct D as (text & D & Wt & R). exists text.
  split; [|split; [|split; [|split; [|split]]]].
  - rewrite K.
    assert (E1 : (if has_custom_nsp p
                  then [(48 + t)%N] ++ (match nsp p with Some n => n | None => [] end ++ str ",")
                  else [(48 + t)%N])
                 = [(48 + t)%N] ++ nsp_segment (nsp_on_wire p)).
    { unfold nsp_on_wire, has_custom_nsp. destruct (nsp p) as [x|]; [|reflexivity].
      destruct (truthy x && negb (eqb_str (str "/") x)); reflexivity. }
    rewrite E1. clear E1.
    assert (E2 : forall a, match option_map Num k with
                           | Some i => a ++ NumberToString i
                           | None => a
                           end = a ++ id_segment k).
    { intros a. destruct k; cbn; [reflexivity | rewrite app_nil_r; reflexivity]. }
    rewrite E2. clear E2.
    destruct (has_data p) as [d|].
    + destruct (_tryStringify JSON_stringify d); try discriminate;
        injection D as <-; rewrite <- !app_assoc; reflexivity.
    + injection D as <-. rewrite <- !app_assoc, app_nil_r. reflexivity.
  - unfold nsp_on_wire, has_custom_nsp. intros x.
    destruct (nsp p) as [y|] eqn:E; [|discriminate].
    destruct (truthy y && negb (eqb_str (str "/") y)); [|discriminate].
    intros [= <-]. apply Wn. reflexivity.
  - unfold nsp_on_wire, has_custom_nsp. destruct (nsp p) as [y|] eqn:E; [|reflexivity].
    destruct (Wn y eq_refl) as (rest & -> & _). cbn [truthy andb].
    destruct (eqb_str (str "/") (47%N :: rest)) eqn:Q; [|reflexivity].
    apply eqb_str_eq in Q. rewrite <- Q. reflexivity.
  - symmetry. exact K.
  - exact Wt.
  - exact R.
Qed.

(** Decoding the frame of a sendable packet gives the packet back, with
    the default namespace filled in when it had none. *)
Lemma round_trip_exact (p : packet) (t : N) :
  sendable JSON_stringify parseAsync p t ->
  _decodePacket parseAsync (_encodePacket JSON_stringify p)
  = Some {| type := type p;
            nsp := Some (nsp_or_default (nsp p));
            id := id p;
            data := data p |}.
Proof.
  intros S. destruct (encode_sendable p t S) as (k & text & -> & Wn & N & K & Wt & R).
  destruct S as (T & B & _).
  rewrite (decode_wire_frame t (nsp_on_wire p) k text B Wn Wt).
  cbv zeta. rewrite N, K, T.
  destruct (data p) as [d|].
  - destruct R as (_ & R & NE & V). unfold _tryParse. rewrite R, V.
    destruct text; [congruence | reflexivity].
  - rewrite R. reflexivity.
Qed.

(** *** The decoder on any frame *)

Lemma _decodePacket_cases (s : jsstring) :
  exists i n j k,
    lookup_nsp s 0 = Some (i, n) /\
    lookup_id s i = Some (j, k) /\
    _decodePacket parseAsync s =
    Some (if nullish (types_at (ToNumber (charAt s 0)))
          then buildError (str "unknown packet type "
                           ++ NumberToString (ToNumber (charAt s 0)))
          else if truthy (charAt s (S j))
          then if isPayloadValid (ToNumber (charAt s 0))
                                 (_tryParse parseAsync (substr s (S j)))
               then {| type := ToNumber (charAt s 0); nsp := Some n; id := k;
                       data := Some (_tryParse parseAsync (substr s (S j))) |}
               else buildError (str "invalid payload")
          else {| type := ToNumber (charAt s 0); nsp := Some n; id := k;
                  data := None |}).
Proof.
  destruct (lookup_nsp_total s) as (i & n & E1).
  destruct (lookup_id_total s i) as (j & k & E2).
  exists i, n, j, k. split; [exact E1|]. split; [exact E2|].
  unfold _decodePacket. rewrite E1, E2.
  destruct (nullish _); [reflexivity|].
  destruct (truthy _); [|reflexivity].
  destruct (isPayloadValid _ _); reflexivity.
Qed.


(** A frame that starts with a digit 5-9, or with a code unit that is
    neither a digit nor white space, is answered with the error packet of
    an unknown type. *)
Lemma unknown_type_rejected (c : N) (rest : jsstring) :
  isWhiteSpace c = false ->
  ~ (48 <= c <= 52)%N ->
  _decodePacket parseAsync (c :: rest)
  = Some (buildError (str "unknown packet type " ++ NumberToString (ToNumber [c]))).
Proof.
  intros W R. unfold _decodePacket.
  change (charAt (c :: rest) 0) with [c].
  replace (nullish (types_at (ToNumber [c]))) with true; [reflexivity|].
  symmetry. destruct (nullish (types_at (ToNumber [c]))) eqn:E; [reflexivity|].
  apply types_at_known in E. destruct E as (t & E & B).
  rewrite ToNumber_unit, W in E.
  destruct (isDigit c) eqn:D; [|discriminate].
  apply digit_range in D. injection E as E. lia.
Qed.

Lemma digit_text (c : N) : isDigit c = true -> NumberToString (ToNumber [c]) = [c].
Proof.
  intros D. rewrite ToNumber_unit, (digit_not_space c D), D.
  apply digit_range in D.
  assert (E : (c = 48 \/ c = 49 \/ c = 50 \/ c = 51 \/ c = 52 \/ c = 53 \/
               c = 54 \/ c = 55 \/ c = 56 \/ c = 57)%N) by lia.
  repeat (destruct E as [-> | E]; [reflexivity|]). subst c. reflexivity.
Qed.

(** X3. Unknown types: a frame whose first code unit is neither white
    space nor one of the digits 0-4 is answered with the error packet whose
    data is parser error: unknown packet type followed by the Number the
    code unit is read as, which prints as the digit itself for a digit 5-9
    and as NaN for any other code unit. *)
Theorem unknown_packet_type (c : N) (rest : jsstring) :
  isWhiteSpace c = false ->
  ~ (48 <= c <= 52)%N ->
  _decodePacket parseAsync (c :: rest)
  = Some (buildError (str "unknown packet type "
                      ++ (if isDigit c then [c] else str "NaN"))) /\
  type (buildError (str "unknown packet type "
                    ++ (if isDigit c then [c] else str "NaN"))) = ERROR.
Proof.
  intros W R. split; [|reflexivity].
  rewrite (unknown_type_rejected c rest W R).
  destruct (isDigit c) eqn:D.
  - rewrite (digit_text c D). reflexivity.
  - rewrite ToNumber_unit, W, D. reflexivity.
Qed.

(** X2. The payload stage on a frame of the wire grammar, with an id that
    is absent or a safe integer, whose payload parses to a value other than
    false: the value becomes the data when the type is ERROR or the value is
    an array, and the frame is answered with the error packet of an invalid
    payload otherwise. *)
Theorem payload_validation (t : N) (n : option jsstring) (k : option N)
      (payload : jsstring) (v : value) :
  (t <= 4)%N ->
  (forall x, n = Some x -> wire_nsp x) ->
  (forall m, k = Some m -> isSafeInteger m) ->
  payload_text payload ->
  parseAsync payload = Some v ->
  is_false v = false ->
  _decodePacket parseAsync (wire_frame t n k payload)
  = Some (if (t =? 4)%N || isArray v
          then {| type := Num t; nsp := Some (nsp_or_default n);
                  id := option_map Num k; data := Some v |}
          else buildError (str "invalid payload")).
Proof.
  intros B Wn _ Wp P F.
  rewrite (decode_wire_frame t n k payload B Wn (or_intror Wp)).
  destruct Wp as (c & rest & -> & _). cbv zeta.
  unfold _tryParse. rewrite P. unfold isPayloadValid. rewrite F.
  reflexivity.
Qed.

(** The id stage where no id is read: at the end of the frame, or before
    a code unit that is neither a digit nor white space. *)
Lemma lookup_id_absent (s : jsstring) (i : nat) :
  charAt s (i + 1) = [] \/
  (exists c, charAt s (i + 1) = [c] /\ isNumeric c = false) ->
  lookup_id s i = Some (i, None).
Proof.
  unfold lookup_id. intros [-> | (c & -> & C)]; [reflexivity|].
  rewrite loose_eq_unit, C. reflexivity.
Qed.

(** ** The properties of the codec *)

(** C1 (amended). Round trip: for every sendable packet, that is a packet
    with type in 0..4, a namespace that is absent, the default one or a
    wire namespace (a slash followed by no comma), an id that is absent or
    a safe non-negative integer (0 included), and data that is absent or a
    value other than null and false, an array unless the type is ERROR,
    whose JSON text starts with no digit, white space or slash and parses
    back to it, decoding the frame produced by encoding the packet yields
    a packet equal to it in all the fields present in it. *)
Theorem round_trip (p : packet) (t : N) :
  sendable JSON_stringify parseAsync p t ->
  exists q,
    _decodePacket parseAsync (_encodePacket JSON_stringify p) = Some q /\
    agrees_on_present p q /\
    q = {| type := type p; nsp := Some (nsp_or_default (nsp p));
           id := id p; data := data p |}.
Proof.
  intros S. rewrite (round_trip_exact p t S). eexists. split; [reflexivity|].
  split; [|reflexivity].
  unfold agrees_on_present, present_eq. cbn [type nsp id data].
  split; [reflexivity|]. split.
  - destruct (nsp p); reflexivity.
  - split; [destruct (id p) | destruct (data p)]; reflexivity.
Qed.

(** C2. The payload check at its failing input: the frame of an ERROR
    packet whose payload is the JSON text false, which the parser reads as
    the value false, is answered with the error packet of an invalid
    payload; the value is not accepted as data. *)
Theorem error_payload_false_rejected :
  parseAsync (str "false") = Some (VBool false) ->
  _decodePacket parseAsync (str "4false")
  = Some (buildError (str "invalid payload")).
Proof.
  intros P.
  change (str "4false") with (wire_frame 4 None None (str "false")).
  rewrite decode_wire_frame.
  - cbv zeta. change (str "false") with (102%N :: str "alse") at 1.
    cbv iota. unfold _tryParse. rewrite P. reflexivity.
  - lia.
  - discriminate.
  - right. exists 102%N, (str "alse"). repeat split. discriminate.
Qed.

(** C3. Unknown types at the failing input: the frame made of one space
    is not answered with an error packet; the space is read as type 0 and
    the frame decodes as a CONNECT packet on the default namespace. *)
Theorem leading_space_decodes_as_CONNECT :
  isDigit 32 = false /\
  charAt (str " ") 0 = [32%N] /\
  ToNumber (charAt (str " ") 0) = CONNECT /\
  _decodePacket parseAsync (str " ")
  = Some {| type := CONNECT; nsp := Some (str "/"); id := None; data := None |}.
Proof.
  repeat split; reflexivity.
Qed.

(** C4. Encode never fails visibly: for every packet whose data is set
    and makes the serializer raise, [encode] calls the callback exactly
    once, with a one-element sequence holding the fallback frame, which is
    the digit 4 followed by the JSON string encode error. *)
Theorem encode_never_throws (p : packet) (d : value) :
  data p = Some d -> d <> VNull ->
  JSON_stringify d = Throw ->
  encode JSON_stringify p = [[ERROR_PACKET]] /\
  ERROR_PACKET = str "4" ++ dquote ++ str "encode error" ++ dquote.
Proof.
  intros D N T. split; [|reflexivity].
  unfold encode, _encodePacket.
  replace (has_data p) with (Some d)
    by (unfold has_data; rewrite D; destruct d; congruence).
  unfold _tryStringify. rewrite T. reflexivity.
Qed.


(** C6. The id scan at its failing input: in the frame made of the digit
    2 and one space, the character after the type is no decimal digit, yet
    the id stage accumulates it and the decoded packet has the id 0. *)
Theorem id_scan_reads_white_space :
  isDigit 32 = false /\
  lookup_id (str "2 ") 0 = Some (2, Some (Num 0)) /\
  _decodePacket parseAsync (str "2 ")
  = Some {| type := EVENT; nsp := Some (str "/"); id := Some (Num 0); data := None |}.
Proof.
  repeat split; reflexivity.
Qed.

(** C7 (amended). Default namespace omission: encoding any packet with
    nsp equal to the default namespace produces the frame of the same
    packet with no namespace at all, in which the type is followed at once
    by the id and the payload (or which is the fallback frame); and on any
    frame whose character at position 1 is not a slash the namespace stage
    sets the default namespace and leaves the scan position where it was
    (the id stage starts from position 0), so that decoding yields the
    packet of the frame's type with the default namespace whenever the
    leading character is read as a known type and the payload is absent or
    passes the payload check; only a frame of an unknown type, or one whose
    payload fails the check, is answered with the synthesized error packet
    of that failure, which carries no namespace. *)
Theorem default_namespace_omitted :
  (forall p,
      nsp p = Some (str "/") ->
      _encodePacket JSON_stringify p = _encodePacket JSON_stringify (without_nsp p) /\
      _encodePacket JSON_stringify p =
      match has_data p with
      | None => NumberToString (type p) ++ id_segment_of p
      | Some d =>
          match JSON_stringify d with
          | Return (Some payload) => NumberToString (type p) ++ id_segment_of p ++ payload
          | Return None => NumberToString (type p) ++ id_segment_of p ++ str "undefined"
          | Throw => ERROR_PACKET
          end
      end) /\
  (forall s,
      charAt s 1 <> str "/" ->
      (forall i, lookup_nsp s i = Some (i, str "/")) /\
      exists j k,
        lookup_id s 0 = Some (j, k) /\
        (nullish (types_at (ToNumber (charAt s 0))) = false ->
         truthy (charAt s (S j)) = false ->
         _decodePacket parseAsync s
         = Some {| type := ToNumber (charAt s 0); nsp := Some (str "/");
                   id := k; data := None |}) /\
        (nullish (types_at (ToNumber (charAt s 0))) = false ->
         truthy (charAt s (S j)) = true ->
         isPayloadValid (ToNumber (charAt s 0))
                        (_tryParse parseAsync (substr s (S j))) = true ->
         _decodePacket parseAsync s
         = Some {| type := ToNumber (charAt s 0); nsp := Some (str "/");
                   id := k;
                   data := Some (_tryParse parseAsync (substr s (S j))) |}) /\
        (nullish (types_at (ToNumber (charAt s 0))) = false ->
         truthy (charAt s (S j)) = true ->
         isPayloadValid (ToNumber (charAt s 0))
                        (_tryParse parseAsync (substr s (S j))) = false ->
         _decodePacket parseAsync s = Some (buildError (str "invalid payload")) /\
         nsp (buildError (str "invalid payload")) = None) /\
        (nullish (types_at (ToNumber (charAt s 0))) = true ->
         _decodePacket parseAsync s
         = Some (buildError (str "unknown packet type "
                             ++ NumberToString (ToNumber (charAt s 0)))) /\
         nsp (buildError (str "unknown packet type "
                          ++ NumberToString (ToNumber (charAt s 0)))) = None)).
Proof.
  split.
  - intros p N. unfold _encodePacket, has_custom_nsp, without_nsp, has_data, id_segment_of.
    cbn [type nsp id data]. rewrite N.
    change (truthy (str "/") && negb (eqb_str (str "/") (str "/"))) with false.
    cbv iota. split; [reflexivity|]. cbn [app].
    destruct (data p) as [[]|]; unfold _tryStringify;
      try (destruct (id p); [|rewrite ?app_nil_r]; reflexivity);
      destruct (JSON_stringify _) as [[payload|]|];
      destruct (id p); cbn [app]; rewrite <- ?app_assoc; reflexivity.
  - intros s H. split; [intros i; apply lookup_nsp_default; exact H|].
    destruct (_decodePacket_cases s) as (i & n & j & k & E1 & E2 & E).
    rewrite (lookup_nsp_default s 0 H) in E1. injection E1 as <- <-.
    exists j, k. split; [exact E2|]. rewrite E.
    split; [intros -> ->; reflexivity|].
    split; [intros -> -> ->; reflexivity|].
    split; [intros -> -> ->; split; reflexivity|].
    intros ->. split; reflexivity.
Qed.

(** C8 (amended). Id zero is preserved: a sendable packet with id 0
    encodes to a frame of the wire grammar with the digit 0 in the id
    position, and decoding that frame yields a packet whose id is present
    and equal to 0, whereas the same packet with no id round-trips to a
    packet with no id. *)
Theorem id_zero_preserved (p : packet) (t : N) :
  sendable JSON_stringify parseAsync p t ->
  id p = Some (Num 0) ->
  (exists text,
      _encodePacket JSON_stringify p
      = [(48 + t)%N] ++ nsp_segment (nsp_on_wire p) ++ str "0" ++ text /\
      match data p with
      | Some d => JSON_stringify d = Return (Some text)
      | None => text = []
      end) /\
  (exists q,
      _decodePacket parseAsync (_encodePacket JSON_stringify p) = Some q /\
      id q = Some (Num 0)) /\
  (exists q0,
      _decodePacket parseAsync (_encodePacket JSON_stringify (without_id p)) = Some q0 /\
      id q0 = None).
Proof.
  intros S Z. split; [|split].
  - destruct (encode_sendable p t S) as (k & text & E & _ & _ & K & _ & R).
    rewrite Z in K. destruct k as [m|]; [|discriminate].
    injection K as ->. exists text. split; [exact E|].
    destruct (data p); [apply R | exact R].
  - rewrite (round_trip_exact p t S). eexists. split; [reflexivity|]. exact Z.
  - assert (S0 : sendable JSON_stringify parseAsync (without_id p) t).
    { destruct S as (T & B & Wn & _ & Wd).
      split; [exact T|]. split; [exact B|]. split; [exact Wn|].
      split; [intros x [=] | exact Wd]. }
    rewrite (round_trip_exact _ t S0). eexists. split; reflexivity.
Qed.

(** C9. Invalid input type fails synchronously: for every argument that
    is not a string, [add] raises an error to its caller and emits no
    decoded event. *)
Theorem add_rejects_non_string (v : value) :
  (forall s, v <> VStr s) ->
  raised (add parseAsync v) = Some (Error (str "Unknown type: ") v) /\
  decoded (add parseAsync v) = [].
Proof.
  intros H. destruct v; try (split; reflexivity).
  elim (H s). reflexivity.
Qed.

(** C10. The empty frame: the missing leading character is read as the
    number 0, and decoding yields no error packet but the CONNECT packet
    on the default namespace, with no id and no data. *)
Theorem empty_frame_is_CONNECT :
  charAt [] 0 = [] /\
  ToNumber (charAt [] 0) = Num 0 /\
  _decodePacket parseAsync []
  = Some {| type := CONNECT; nsp := Some (str "/"); id := None; data := None |}.
Proof.
  repeat split; reflexivity.
Qed.

End Properties.

(** ** The decoder against the reference decoder *)

Lemma take_drop_while (f : N -> bool) (s : jsstring) :
  take_while f s ++ drop_while f s = s.
Proof.
  induction s as [|c s IH]; [reflexivity|].
  simpl. destruct (f c); [simpl; rewrite IH|]; reflexivity.
Qed.

Lemma drop_while_head (f : N -> bool) (s : jsstring) (c : N) (r : jsstring) :
  drop_while f s = c :: r -> f c = false.
Proof.
  induction s as [|x s IH]; [discriminate|].
  simpl. destruct (f x) eqn:E; [exact IH|].
  intros [= <- <-]. exact E.
Qed.

Lemma take_while_all (f : N -> bool) (s : jsstring) :
  Forall (fun c => f c = true) (take_while f s).
Proof.
  induction s as [|c s IH]; [constructor|].
  simpl. destruct (f c) eqn:E; constructor; assumption.
Qed.

Lemma charAt_first (s : jsstring) : charAt s 0 = firstn 1 s.
Proof.
  destruct s; reflexivity.
Qed.

(** The namespace loop from any position: it gathers the code units up to
    the first comma or the end of the frame, and stops there. *)
Lemma nsp_loop_scan (rest : jsstring) :
  forall (fuel : nat) (pre acc : jsstring) (i : nat),
    length pre = S i -> length rest < fuel ->
    nsp_loop fuel (pre ++ rest) i acc
    = Some (S i + length (take_while not_comma rest), acc ++ take_while not_comma rest).
Proof.
  induction rest as [|c r IH]; intros fuel pre acc i P F;
    (destruct fuel as [|f]; [simpl in F; lia|]); cbn [nsp_loop take_while].
  - rewrite app_nil_r. rewrite (charAt_beyond pre (S i)) by lia.
    cbn. rewrite P, Nat.eqb_refl, app_nil_r, Nat.add_0_r. reflexivity.
  - rewrite (charAt_after pre c r (S i) P), (not_at_end pre c r (S i) P).
    change (eqb_str (str ",") [c]) with ((44 =? c)%N && true).
    change (not_comma c) with (negb (c =? 44)%N).
    rewrite andb_true_r, N.eqb_sym. destruct (c =? 44)%N; cbn [negb].
    + cbn. rewrite app_nil_r, Nat.add_0_r. reflexivity.
    + rewrite snoc_app, IH with (i := S i).
      * rewrite <- app_assoc. simpl. f_equal. f_equal. lia.
      * rewrite length_app. simpl. lia.
      * simpl in F. lia.
Qed.

(** The id loop from any position: it gathers the code units that [Number]
    accepts, and stops on the last of them, or one past the frame when they
    run to its end. *)
Lemma id_loop_scan (rest : jsstring) :
  forall (fuel : nat) (pre acc : jsstring) (i : nat),
    length pre = S i -> length rest < fuel ->
    id_loop fuel (pre ++ rest) i acc
    = Some (match drop_while isNumeric rest with
            | [] => S i + length (take_while isNumeric rest)
            | _ :: _ => i + length (take_while isNumeric rest)
            end, acc ++ take_while isNumeric rest).
Proof.
  induction rest as [|c r IH]; intros fuel pre acc i P F;
    (destruct fuel as [|f]; [simpl in F; lia|]); cbn [id_loop take_while drop_while].
  - rewrite app_nil_r. rewrite (charAt_beyond pre (S i)) by lia.
    cbn. rewrite P, Nat.eqb_refl, app_nil_r, Nat.add_0_r. reflexivity.
  - rewrite (charAt_after pre c r (S i) P), (not_at_end pre c r (S i) P).
    rewrite loose_eq_unit. destruct (isNumeric c); cbn [orb negb].
    + rewrite snoc_app, IH with (i := S i).
      * rewrite <- app_assoc. simpl.
        destruct (drop_while isNumeric r); f_equal; f_equal; lia.
      * rewrite length_app. simpl. lia.
      * simpl in F. lia.
    + cbn. rewrite app_nil_r, Nat.add_0_r. reflexivity.
Qed.

(** Stages 3 and 4 on any text after the type and namespace. *)
Lemma lookup_id_scan (pre rest : jsstring) (i : nat) :
  length pre = S i ->
  exists j,
    lookup_id (pre ++ rest) i = Some (j, fst (scan_id rest)) /\
    charAt (pre ++ rest) (S j) = firstn 1 (snd (scan_id rest)) /\
    substr (pre ++ rest) (S j) = snd (scan_id rest).
Proof.
  intros P. unfold lookup_id, scan_id. rewrite Nat.add_1_r.
  destruct rest as [|c r].
  - exists i. rewrite app_nil_r. rewrite (charAt_beyond pre (S i)) by lia.
    cbn [eqb_str negb andb take_while drop_while fst snd firstn].
    split; [reflexivity|]. split; [reflexivity|].
    unfold substr. apply skipn_all2. lia.
  - rewrite (charAt_after pre c r (S i) P), loose_eq_unit.
    cbn [eqb_str negb andb take_while drop_while].
    destruct (isNumeric c) eqn:C.
    + rewrite (id_loop_scan (c :: r) _ pre [] i P) by (rewrite length_app; lia).
      cbn [take_while drop_while app fst snd]. rewrite C.
      pose proof (take_drop_while isNumeric r) as TD.
      destruct (drop_while isNumeric r) as [|d r'] eqn:DW.
      * exists (S i + length (c :: take_while isNumeric r)).
        rewrite app_nil_r in TD. rewrite TD.
        split; [reflexivity|]. split.
        -- apply charAt_beyond. rewrite length_app. simpl. lia.
        -- unfold substr. apply skipn_all2. rewrite length_app. simpl. lia.
      * exists (i + length (c :: take_while isNumeric r)).
        split; [reflexivity|].
        assert (E : pre ++ c :: r = (pre ++ c :: take_while isNumeric r) ++ d :: r').
        { rewrite <- app_assoc. cbn [app]. rewrite TD. reflexivity. }
        assert (L : length (pre ++ c :: take_while isNumeric r)
                    = S (i + length (c :: take_while isNumeric r)))
          by (rewrite length_app; lia).
        rewrite E. split.
        -- apply charAt_after. exact L.
        -- apply substr_after. exact L.
    + exists i. cbn [fst snd firstn].
      split; [reflexivity|]. split.
      * apply charAt_after. exact P.
      * apply substr_after. exact P.
Qed.

(** Stage 2 on any frame: the namespace of the reference scan, and where
    the scan stands after it. *)
Lemma lookup_nsp_scan (tc : N) (body : jsstring) :
  exists i,
    lookup_nsp (tc :: body) 0 = Some (i, fst (scan_nsp body)) /\
    ((exists pre, tc :: body = pre ++ snd (scan_nsp body) /\ length pre = S i)
     \/ (snd (scan_nsp body) = [] /\ length (tc :: body) <= i)).
Proof.
  unfold lookup_nsp, scan_nsp. destruct body as [|c r].
  - exists 0. split; [reflexivity|]. left. exists [tc]. split; reflexivity.
  - change (charAt (tc :: c :: r) 1) with [c].
    change (eqb_str (str "/") [c]) with ((47 =? c)%N && true).
    rewrite andb_true_r, N.eqb_sym. destruct (c =? 47)%N.
    + rewrite (nsp_loop_scan (c :: r) _ [tc] [] 0 eq_refl) by (simpl; lia).
      cbn [app fst snd]. eexists. split; [reflexivity|].
      pose proof (take_drop_while not_comma (c :: r)) as TD.
      destruct (drop_while not_comma (c :: r)) as [|d r'].
      * right. split; [reflexivity|]. rewrite app_nil_r in TD. rewrite TD.
        simpl. lia.
      * left. exists (tc :: take_while not_comma (c :: r) ++ [d]). split.
        -- cbn [skipn app]. rewrite <- app_assoc. cbn [app]. rewrite TD. reflexivity.
        -- cbn [length]. rewrite length_app. simpl. lia.
    + exists 0. split; [reflexivity|]. left. exists [tc]. split; reflexivity.
Qed.

Section Reference.

Variable JSON_stringify : value -> completion (option jsstring).
Variable parseAsync : jsstring -> option value.

(** The decoder computes the reference decoder. *)
Lemma decode_reference (s : jsstring) :
  _decodePacket parseAsync s = Some (reference_decode parseAsync s).
Proof.
  unfold _decodePacket, reference_decode. rewrite charAt_first.
  destruct (nullish _); [reflexivity|].
  destruct s as [|tc body]; [reflexivity|].
  cbn [skipn].
  destruct (lookup_nsp_scan tc body) as (i & -> & W).
  destruct (scan_nsp body) as [n rest]. cbn [fst snd] in *.
  destruct W as [(pre & -> & P) | (-> & L)].
  - destruct (lookup_id_scan pre rest i P) as (j & -> & -> & ->).
    destruct (scan_id rest) as [k payload]. cbn [fst snd].
    destruct payload as [|c r]; [reflexivity|]. cbn [firstn truthy].
    destruct (isPayloadValid _ _); reflexivity.
  - unfold lookup_id. rewrite (charAt_beyond (tc :: body) (i + 1)) by lia.
    cbn [eqb_str negb andb]. rewrite (charAt_beyond (tc :: body) (S i)) by lia.
    reflexivity.
Qed.

(** X5. The decoder against its grammar: on every frame the scan with a
    position and two loops resolves with the packet of the reference
    decoder: the type read from the first code unit; when the second one is
    a slash, the namespace up to the first comma or the end of the frame;
    the id as the Number of the longest run of code units that [Number]
    accepts; the rest as payload. *)
Theorem decoder_refines_reference (s : jsstring) :
  _decodePacket parseAsync s = Some (reference_decode parseAsync s).
Proof.
  exact (decode_reference s).
Qed.

Lemma scan_nsp_wire (body : jsstring) : wire_nsp (fst (scan_nsp body)).
Proof.
  unfold scan_nsp. destruct body as [|c r].
  - exists []. split; [reflexivity | intros []].
  - destruct (N.eqb_spec c 47) as [->|NE].
    + cbn [fst take_while]. change (not_comma 47) with true. cbv iota.
      exists (take_while not_comma r). split; [reflexivity|].
      intros I. pose proof (take_while_all not_comma r) as A.
      rewrite Forall_forall in A. specialize (A _ I). discriminate A.
    + exists []. split; [reflexivity | intros []].
Qed.

Lemma number_eqb_eq (x y : number) : number_eqb x y = true -> x = y.
Proof.
  destruct x, y; try discriminate. simpl. intros E.
  apply N.eqb_eq in E. congruence.
Qed.

(** X6. What a decoded packet looks like, whatever the frame: its
    namespace, when set, is a wire namespace (a slash followed by no
    comma); its data, when set, is never the value false, and is an array
    unless the packet's type is ERROR; and a packet with no namespace is a
    synthesized error packet, of type ERROR, with no id and a parser error
    text as data. *)
Theorem decoded_packet_shape (s : jsstring) :
  exists p,
    _decodePacket parseAsync s = Some p /\
    (forall n, nsp p = Some n -> wire_nsp n) /\
    (forall v, data p = Some v ->
               is_false v = false /\ (type p = ERROR \/ isArray v = true)) /\
    (nsp p = None ->
     type p = ERROR /\ id p = None /\
     exists msg, data p = Some (VStr (str "parser error: " ++ msg))).
Proof.
  exists (reference_decode parseAsync s). split; [apply decode_reference|].
  unfold reference_decode.
  assert (E : forall msg,
             (forall n, nsp (buildError msg) = Some n -> wire_nsp n) /\
             (forall v, data (buildError msg) = Some v ->
                        is_false v = false /\
                        (type (buildError msg) = ERROR \/ isArray v = true)) /\
             (nsp (buildError msg) = None ->
              type (buildError msg) = ERROR /\ id (buildError msg) = None /\
              exists m, data (buildError msg) = Some (VStr (str "parser error: " ++ m)))).
  { intros msg. cbn [buildError type nsp id data]. split; [discriminate|]. split.
    - intros v [= <-]. split; [reflexivity | left; reflexivity].
    - intros _. split; [reflexivity|]. split; [reflexivity|]. eauto. }
  destruct (nullish _); [apply E|].
  pose proof (scan_nsp_wire (skipn 1 s)) as W.
  destruct (scan_nsp (skipn 1 s)) as [n rest]. cbn [fst] in W.
  destruct (scan_id rest) as [k payload].
  destruct payload as [|c r].
  - cbn [type nsp id data]. split; [intros ? [= <-]; exact W|].
    split; discriminate.
  - destruct (isPayloadValid _ _) eqn:V; [|apply E].
    cbn [type nsp id data]. split; [intros ? [= <-]; exact W|].
    split; [|discriminate]. intros v [= <-].
    unfold isPayloadValid in V. apply andb_true_iff in V. destruct V as [F A].
    split; [destruct (is_false _); [discriminate F | reflexivity]|].
    apply orb_true_iff in A. destruct A as [A|A]; [left | right; exact A].
    apply number_eqb_eq. exact A.
Qed.

Lemma no_comma_scan (rest : jsstring) :
  ~ In 44%N rest ->
  take_while not_comma rest = rest /\ drop_while not_comma rest = [].
Proof.
  induction rest as [|c r IH]; intros H; [split; reflexivity|].
  simpl. destruct (N.eqb_spec c 44) as [->|NE].
  - elim H. left. reflexivity.
  - change (not_comma c) with (negb (c =? 44)%N).
    replace (c =? 44)%N with false by (symmetry; apply N.eqb_neq; exact NE).
    cbn [negb]. destruct IH as [-> ->]; [|split; reflexivity].
    intros I. apply H. right. exact I.
Qed.

(** X7. A namespace that no comma ends takes the rest of the frame: a
    frame made of a type digit 0-4, a slash and any text without a comma
    decodes to the packet of that type whose namespace is all of that text,
    slash included, with no id and no data, whatever digits or JSON the
    text holds. *)
Theorem unterminated_namespace (t : N) (rest : jsstring) :
  (t <= 4)%N ->
  ~ In 44%N rest ->
  _decodePacket parseAsync ((48 + t)%N :: 47%N :: rest)
  = Some {| type := Num t; nsp := Some (47%N :: rest); id := None; data := None |}.
Proof.
  intros B C. rewrite decode_reference. unfold reference_decode.
  cbn [firstn skipn]. rewrite (type_digit t B).
  rewrite (proj2 (types_at_known (Num t))) by eauto.
  unfold scan_nsp. rewrite N.eqb_refl.
  assert (C' : ~ In 44%N (47%N :: rest))
    by (intros [E|I]; [discriminate | exact (C I)]).
  destruct (no_comma_scan (47%N :: rest) C') as [-> ->].
  reflexivity.
Qed.


(** X9. An encode failure reaches the peer as an ERROR packet: when the
    data of a packet makes the serializer raise, and the parser reads the
    JSON string encode error, decoding the frame that [_encodePacket]
    returns yields the packet of type ERROR on the default namespace with
    data encode error and no id, whatever the type, namespace and id of the
    packet were. *)
Theorem encode_failure_delivered (p : packet) (d : value) :
  data p = Some d -> d <> VNull ->
  JSON_stringify d = Throw ->
  parseAsync (dquote ++ str "encode error" ++ dquote) = Some (VStr (str "encode error")) ->
  _decodePacket parseAsync (_encodePacket JSON_stringify p)
  = Some {| type := ERROR; nsp := Some (str "/"); id := None;
            data := Some (VStr (str "encode error")) |}.
Proof.
  intros D N T P.
  assert (E : _encodePacket JSON_stringify p
              = wire_frame 4 None None (dquote ++ str "encode error" ++ dquote)).
  { unfold _encodePacket.
    replace (has_data p) with (Some d)
      by (unfold has_data; rewrite D; destruct d; congruence).
    unfold _tryStringify. rewrite T. reflexivity. }
  rewrite E, decode_wire_frame.
  - cbv zeta. change (dquote ++ str "encode error" ++ dquote)
      with (34%N :: str "encode error" ++ dquote) at 1.
    cbv iota. unfold _tryParse. rewrite P. reflexivity.
  - lia.
  - discriminate.
  - right. exists 34%N, (str "encode error" ++ dquote). repeat split. discriminate.
Qed.

(** X10. Frames tell sendable packets apart: two sendable packets with the
    same frame have the same type, id and data, and the same namespace once
    an absent namespace is read as the default one. *)
Theorem encode_injective (p1 p2 : packet) (t1 t2 : N) :
  sendable JSON_stringify parseAsync p1 t1 ->
  sendable JSON_stringify parseAsync p2 t2 ->
  _encodePacket JSON_stringify p1 = _encodePacket JSON_stringify p2 ->
  with_default_nsp p1 = with_default_nsp p2.
Proof.
  intros S1 S2 E.
  pose proof (round_trip_exact JSON_stringify parseAsync p1 t1 S1) as R1.
  pose proof (round_trip_exact JSON_stringify parseAsync p2 t2 S2) as R2.
  rewrite E, R2 in R1. injection R1 as E1 E2 E3 E4.
  unfold with_default_nsp. congruence.
Qed.

Lemma decimal_single (t : N) : (t <= 9)%N -> decimal t = [(48 + t)%N].
Proof.
  intros H.
  assert (E : (t = 0 \/ t = 1 \/ t = 2 \/ t = 3 \/ t = 4 \/ t = 5 \/ t = 6 \/
               t = 7 \/ t = 8 \/ t = 9)%N) by lia.
  repeat (destruct E as [-> | E]; [reflexivity|]). subst t. reflexivity.
Qed.

(** The frame of a decoded header: type, namespace (written unless it is
    the default one) and id. *)
Lemma encode_header (t : N) (n : option jsstring) (k : option N) (d : option value) :
  (t <= 4)%N ->
  (forall x, n = Some x -> wire_nsp x /\ x <> str "/") ->
  _encodePacket JSON_stringify
    {| type := Num t; nsp := Some (nsp_or_default n); id := option_map Num k; data := d |}
  = match has_data {| type := Num t; nsp := None; id := None; data := d |} with
    | Some v =>
        match _tryStringify JSON_stringify v with
        | SFalse => ERROR_PACKET
        | SText payload => wire_frame t n k payload
        | SUndefined => wire_frame t n k (str "undefined")
        end
    | None => wire_frame t n k []
    end.
Proof.
  intros B Wn. unfold _encodePacket, has_custom_nsp, has_data, wire_frame.
  cbn [type nsp id data NumberToString]. rewrite (decimal_type t B).
  assert (C : truthy (nsp_or_default n) && negb (eqb_str (str "/") (nsp_or_default n))
              = match n with Some _ => true | None => false end).
  { destruct n as [x|]; [|reflexivity]. cbn [nsp_or_default].
    destruct (Wn x eq_refl) as ((rest & -> & _) & NE). cbn [truthy andb].
    replace (eqb_str (str "/") (47%N :: rest)) with false; [reflexivity|].
    symmetry. apply eqb_str_neq. congruence. }
  rewrite C. clear C.
  assert (H : (if match n with Some _ => true | None => false end
               then ([] ++ [(48 + t)%N]) ++ nsp_or_default n ++ str ","
               else [] ++ [(48 + t)%N])
              = [(48 + t)%N] ++ nsp_segment n).
  { destruct n; reflexivity. }
  rewrite H. clear H.
  assert (I : forall a, match option_map Num k with
                        | Some i => a ++ NumberToString i
                        | None => a
                        end = a ++ id_segment k).
  { intros a. destruct k; cbn; [reflexivity | rewrite app_nil_r; reflexivity]. }
  rewrite I. clear I.
  destruct d as [[]|];
    try (destruct (_tryStringify JSON_stringify _));
    rewrite <- ?app_assoc, ?app_nil_r; reflexivity.
Qed.

(** X11. Round trip from the frame: a frame of the wire grammar with a
    type digit 0-4, a namespace segment that is absent or a wire namespace
    other than the default one, an id that is absent or the plain digits of
    a safe integer, and a payload that is absent or a
    payload text which parses to a value that passes the payload check, is
    not null and serializes back to the same text, decodes to a packet
    whose encoding is the frame again. *)
Theorem frame_round_trip (t : N) (n : option jsstring) (k : option N)
        (payload : jsstring) :
  (t <= 4)%N ->
  (forall x, n = Some x -> wire_nsp x /\ x <> str "/") ->
  (forall m, k = Some m -> isSafeInteger m) ->
  payload = [] \/
  (payload_text payload /\
   exists v, parseAsync payload = Some v /\ v <> VNull /\
             isPayloadValid (Num t) v = true /\
             JSON_stringify v = Return (Some payload)) ->
  exists p,
    _decodePacket parseAsync (wire_frame t n k payload) = Some p /\
    _encodePacket JSON_stringify p = wire_frame t n k payload.
Proof.
  intros B Wn _ W.
  assert (Wn' : forall x, n = Some x -> wire_nsp x) by (intros x E; apply (Wn x E)).
  assert (Wp : payload = [] \/ payload_text payload)
    by (destruct W as [E | [E _]]; [left | right]; exact E).
  rewrite (decode_wire_frame parseAsync t n k payload B Wn' Wp). cbv zeta.
  eexists. split; [reflexivity|].
  destruct W as [-> | ((c & r & -> & _) & v & P & NN & V & S)].
  - rewrite (encode_header t n k None B Wn). reflexivity.
  - unfold _tryParse. rewrite P, V.
    rewrite (encode_header t n k (Some v) B Wn).
    replace (has_data {| type := Num t; nsp := None; id := None; data := Some v |})
      with (Some v) by (unfold has_data; cbn [data]; destruct v; congruence).
    unfold _tryStringify. rewrite S. reflexivity.
Qed.

(** X12. The encoder does not check the type: a packet whose type is one
    of 5-9 is encoded all the same (unless its data makes the serializer
    raise), and the decoder answers that frame with the error packet of an
    unknown packet type, naming the type. *)
Theorem unknown_type_is_encoded (p : packet) (t : N) :
  type p = Num t -> (5 <= t <= 9)%N ->
  (forall d, has_data p = Some d -> JSON_stringify d <> Throw) ->
  _decodePacket parseAsync (_encodePacket JSON_stringify p)
  = Some (buildError (str "unknown packet type " ++ [(48 + t)%N])).
Proof.
  intros T B H.
  assert (E : exists tail, _encodePacket JSON_stringify p = (48 + t)%N :: tail).
  { unfold _encodePacket. rewrite T. cbn [NumberToString].
    rewrite (decimal_single t) by lia. cbn [app].
    destruct (has_data p) as [d|] eqn:D.
    - specialize (H d eq_refl). unfold _tryStringify.
      destruct (JSON_stringify d) as [[s|]|]; [| |congruence];
        destruct (has_custom_nsp p); destruct (id p); cbn [app]; eauto.
    - destruct (has_custom_nsp p); destruct (id p); cbn [app]; eauto. }
  destruct E as [tail ->].
  assert (D : isDigit (48 + t) = true) by (apply digit_below_ten; lia).
  rewrite (unknown_type_rejected parseAsync (48 + t)%N tail).
  - rewrite (digit_text (48 + t)%N D). reflexivity.
  - apply digit_not_space. exact D.
  - lia.
Qed.

(** X14. Null data is not sent: a packet whose data is null, and which is
    sendable once the data is left out, encodes to the frame of the packet
    without data, and decoding that frame yields the packet with no data at
    all (and the default namespace filled in when it had none). *)
Theorem null_data_not_sent (p : packet) (t : N) :
  data p = Some VNull ->
  sendable JSON_stringify parseAsync (without_data p) t ->
  _encodePacket JSON_stringify p = _encodePacket JSON_stringify (without_data p) /\
  _decodePacket parseAsync (_encodePacket JSON_stringify p)
  = Some (with_default_nsp (without_data p)).
Proof.
  intros D S.
  assert (E : _encodePacket JSON_stringify p
              = _encodePacket JSON_stringify (without_data p)).
  { unfold _encodePacket, has_custom_nsp, has_data, without_data.
    cbn [type nsp id data]. rewrite D. reflexivity. }
  split; [exact E|]. rewrite E.
  exact (round_trip_exact JSON_stringify parseAsync (without_data p) t S).
Qed.

(** X13. From [encode] to [add]: the callback of [encode] on a sendable
    packet gets one frame, and [add] on that frame raises nothing and emits
    exactly one decoded event, the packet itself with the default namespace
    filled in when it had none. *)
Theorem encode_then_add (p : packet) (t : N) :
  sendable JSON_stringify parseAsync p t ->
  exists frame,
    encode JSON_stringify p = [[frame]] /\
    add parseAsync (VStr frame) = {| raised := None; decoded := [with_default_nsp p] |}.
Proof.
  intros S. exists (_encodePacket JSON_stringify p). split; [reflexivity|].
  unfold add. rewrite (round_trip_exact JSON_stringify parseAsync p t S). reflexivity.
Qed.

End Reference.

(** X1. A frame with no payload never needs the parser: when the leading
    code unit is read as no known type, or when nothing is left of the frame
    after the type, the namespace and the id, [add] raises nothing and emits
    exactly one decoded event, and the packet it carries is the same for
    every parser: the one the reference decoder gives. *)
Theorem add_without_payload (parse parse' : jsstring -> option value) (s : jsstring) :
  nullish (types_at (ToNumber (firstn 1 s))) = true \/
  snd (scan_id (snd (scan_nsp (skipn 1 s)))) = [] ->
  add parse (VStr s)
  = {| raised := None; decoded := [reference_decode parse' s] |}.
Proof.
  intros H. unfold add. rewrite decode_reference.
  assert (E : reference_decode parse s = reference_decode parse' s).
  { unfold reference_decode.
    destruct (nullish _); [reflexivity|].
    destruct H as [H|H]; [discriminate H|].
    destruct (scan_nsp (skipn 1 s)) as [n rest]. cbn [snd] in H.
    destruct (scan_id rest) as [k payload]. cbn [snd] in H.
    rewrite H. reflexivity. }
  rewrite E. reflexivity.
Qed.

(** ** The properties on the sample packets *)

(** X2, on an acknowledgement with id 7 and one argument. *)
Lemma payload_validation_witness :
  JSON.parse (str "[1]") = Some (VArr [VNum 1]) /\
  _decodePacket JSON.parse (wire_frame 3 None (Some 7%N) (str "[1]"))
  = Some (if (3 =? 4)%N || isArray (VArr [VNum 1])
          then {| type := Num 3; nsp := Some (nsp_or_default None);
                  id := option_map Num (Some 7%N); data := Some (VArr [VNum 1]) |}
          else buildError (str "invalid payload")).
Proof.
  split; [reflexivity|].
  apply (payload_validation JSON.parse 3 None (Some 7%N) (str "[1]") (VArr [VNum 1])).
  - vm_compute. discriminate.
  - discriminate.
  - intros m [= <-]. reflexivity.
  - exists 91%N, (str "1]"). repeat split. discriminate.
  - reflexivity.
  - reflexivity.
Defined.

(** X3, on the frame 5 and on a frame that starts with a letter. *)
Lemma unknown_packet_type_witness :
  _decodePacket JSON.parse (str "5")
  = Some (buildError (str "unknown packet type 5")) /\
  _decodePacket JSON.parse (str "a[]")
  = Some (buildError (str "unknown packet type NaN")).
Proof.
  split.
  - apply (unknown_packet_type JSON.parse 53 []); [reflexivity | vm_compute; intuition discriminate].
  - apply (unknown_packet_type JSON.parse 97 (str "[]")); [reflexivity | vm_compute; intuition discriminate].
Defined.

(** X4, on the frame 2/a,456[1] after its namespace. *)
Lemma id_scan_on_digits_witness :
  exists j,
    lookup_id (str "2/a," ++ str "456" ++ str "[1]") 3
    = Some (j, Some (Num (decimal_value (str "456")))) /\
    charAt (str "2/a," ++ str "456" ++ str "[1]") (S j) = firstn 1 (str "[1]") /\
    substr (str "2/a," ++ str "456" ++ str "[1]") (S j) = str "[1]".
Proof.
  apply (id_scan_on_digits (str "2/a,") (str "456") (str "[1]") 3).
  - reflexivity.
  - discriminate.
  - repeat constructor.
  - reflexivity.
  - right. exists 91%N, (str "1]"). split; reflexivity.
Defined.

(** C1, on the event with namespace /admin, id 456 and two arguments. *)
Lemma round_trip_witness :
  sendable JSON.stringify JSON.parse project_delete 2 /\
  exists q,
    _decodePacket JSON.parse (_encodePacket JSON.stringify project_delete) = Some q /\
    agrees_on_present project_delete q /\
    q = {| type := type project_delete;
           nsp := Some (nsp_or_default (nsp project_delete));
           id := id project_delete; data := data project_delete |}.
Proof.
  assert (S : sendable JSON.stringify JSON.parse project_delete 2)
    by sendable_by_computation.
  split; [exact S|].
  exact (round_trip JSON.stringify JSON.parse project_delete 2 S).
Defined.

(** C1 as stated fails on an ERROR packet whose data is the number 5 (any
    JSON value is a valid shape for ERROR): its frame is the digits 45, which
    the decoder reads as type 4 with the id 5 and no data. *)
Lemma round_trip_counterexample :
  JSON.parse (str "5") = Some (VNum 5) /\
  _encodePacket JSON.stringify error_five = str "45" /\
  _decodePacket JSON.parse (_encodePacket JSON.stringify error_five)
  = Some {| type := ERROR; nsp := Some (str "/"); id := Some (Num 5); data := None |} /\
  ~ agrees_on_present error_five
      {| type := ERROR; nsp := Some (str "/"); id := Some (Num 5); data := None |}.
Proof.
  split; [reflexivity|]. split; [reflexivity|]. split; [reflexivity|].
  intros (_ & _ & _ & D). discriminate D.
Qed.

(** C2, with the JSON parser. *)
Lemma error_payload_false_rejected_witness :
  JSON.parse (str "false") = Some (VBool false) /\
  _decodePacket JSON.parse (str "4false") = Some (buildError (str "invalid payload")).
Proof.
  split; [reflexivity|].
  apply (error_payload_false_rejected JSON.parse). reflexivity.
Defined.

(** C4, on the event holding a BigInt. *)
Lemma encode_never_throws_witness :
  JSON.stringify (VArr [VBigInt 1]) = Throw /\
  encode JSON.stringify big_event = [[ERROR_PACKET]] /\
  ERROR_PACKET = str "4" ++ dquote ++ str "encode error" ++ dquote.
Proof.
  split; [reflexivity|].
  apply (encode_never_throws JSON.stringify big_event (VArr [VBigInt 1])).
  - reflexivity.
  - discriminate.
  - reflexivity.
Defined.

(** C7, on the acknowledgement with the default namespace and on the frame
    of an event with one argument. *)
Lemma default_namespace_omitted_witness :
  _encodePacket JSON.stringify ack_zero
  = _encodePacket JSON.stringify (without_nsp ack_zero) /\
  lookup_nsp (str "2[1]") 0 = Some (0, str "/") /\
  _decodePacket JSON.parse (str "2[1]")
  = Some {| type := EVENT; nsp := Some (str "/"); id := None;
            data := Some (VArr [VNum 1]) |}.
Proof.
  destruct (default_namespace_omitted JSON.stringify JSON.parse) as [E D].
  split; [apply (E ack_zero); reflexivity|].
  destruct (D (str "2[1]")) as (L & j & k & I & _ & V & _); [discriminate|].
  split; [apply L|].
  vm_compute in I. injection I as <- <-.
  apply V; reflexivity.
Defined.

(** C7 as stated fails on the frame 9: its character at position 1 is not a
    slash, and it decodes to an error packet, which has no nsp. *)
Lemma default_namespace_counterexample :
  charAt (str "9") 1 <> str "/" /\
  _decodePacket JSON.parse (str "9")
  = Some (buildError (str "unknown packet type 9")) /\
  nsp (buildError (str "unknown packet type 9")) = None.
Proof.
  split; [discriminate|]. split; reflexivity.
Qed.

(** C8, on the acknowledgement with id 0. *)
Lemma id_zero_preserved_witness :
  sendable JSON.stringify JSON.parse ack_zero 3 /\
  id ack_zero = Some (Num 0) /\
  (exists text,
      _encodePacket JSON.stringify ack_zero
      = [(48 + 3)%N] ++ nsp_segment (nsp_on_wire ack_zero) ++ str "0" ++ text /\
      match data ack_zero with
      | Some d => JSON.stringify d = Return (Some text)
      | None => text = []
      end) /\
  (exists q,
      _decodePacket JSON.parse (_encodePacket JSON.stringify ack_zero) = Some q /\
      id q = Some (Num 0)) /\
  (exists q0,
      _decodePacket JSON.parse (_encodePacket JSON.stringify (without_id ack_zero))
      = Some q0 /\
      id q0 = None).
Proof.
  assert (S : sendable JSON.stringify JSON.parse ack_zero 3)
    by sendable_by_computation.
  split; [exact S|]. split; [reflexivity|].
  exact (id_zero_preserved JSON.stringify JSON.parse ack_zero 3 S eq_refl).
Defined.

(** C8 as stated fails on the ERROR packet with id 0 whose data is the
    number 5: its frame is the digits 405, and the decoder reads the digits
    05 as the id 5. *)
Lemma id_zero_counterexample :
  id error_five_id0 = Some (Num 0) /\
  _encodePacket JSON.stringify error_five_id0 = str "405" /\
  _decodePacket JSON.parse (_encodePacket JSON.stringify error_five_id0)
  = Some {| type := ERROR; nsp := Some (str "/"); id := Some (Num 5); data := None |}.
Proof.
  repeat split; reflexivity.
Qed.

(** C9, on the number 5. *)
Lemma add_rejects_non_string_witness :
  (forall s, VNum 5 <> VStr s) /\
  raised (add JSON.parse (VNum 5)) = Some (Error (str "Unknown type: ") (VNum 5)) /\
  decoded (add JSON.parse (VNum 5)) = [].
Proof.
  assert (H : forall s, VNum 5 <> VStr s) by (intros s; discriminate).
  split; [exact H|].
  exact (add_rejects_non_string JSON.parse (VNum 5) H).
Defined.

(** The documented examples: the event hello encodes to its frame and
    the frame decodes to the event on the default namespace; a CONNECT on
    /admin encodes to the type, the namespace and a comma; the event on
    /admin with id 456 encodes to type, namespace, comma, id and payload;
    the frame 0 decodes to a CONNECT on the default namespace. *)
Lemma documented_examples :
  _encodePacket JSON.stringify hello_event = hello_frame /\
  _encodePacket JSON.stringify admin_connect = str "0/admin," /\
  _encodePacket JSON.stringify project_delete = project_delete_frame /\
  _decodePacket JSON.parse (str "0")
  = Some {| type := CONNECT; nsp := Some (str "/"); id := None; data := None |} /\
  _decodePacket JSON.parse hello_frame
  = Some {| type := EVENT; nsp := Some (str "/"); id := None;
            data := Some (VArr [VStr (str "hello")]) |}.
Proof.
  repeat split; vm_compute; reflexivity.
Qed.

(** Shape validation on the documented frames: an EVENT frame whose
    payload is a JSON object is answered with the error packet of an invalid
    payload, and an ERROR frame with the same payload is accepted. *)
Lemma shape_validation_examples :
  JSON.parse (str "{}") = Some (VObj []) /\
  _decodePacket JSON.parse (str "2{}") = Some (buildError (str "invalid payload")) /\
  _decodePacket JSON.parse (str "4{}")
  = Some {| type := ERROR; nsp := Some (str "/"); id := None; data := Some (VObj []) |}.
Proof.
  repeat split; vm_compute; reflexivity.
Qed.

(** X7, on the frame 2/admin[1]. *)
Lemma unterminated_namespace_witness :
  ~ In 44%N (str "admin[1]") /\
  _decodePacket JSON.parse ((48 + 2)%N :: 47%N :: str "admin[1]")
  = Some {| type := Num 2; nsp := Some (47%N :: str "admin[1]"); id := None;
            data := None |}.
Proof.
  assert (C : ~ In 44%N (str "admin[1]")) by (vm_compute; intuition discriminate).
  split; [exact C|].
  apply (unterminated_namespace JSON.parse 2 (str "admin[1]")); [vm_compute; discriminate | exact C].
Defined.


(** X9, on the event holding a BigInt. *)
Lemma encode_failure_delivered_witness :
  JSON.stringify (VArr [VBigInt 1]) = Throw /\
  _decodePacket JSON.parse (_encodePacket JSON.stringify big_event)
  = Some {| type := ERROR; nsp := Some (str "/"); id := None;
            data := Some (VStr (str "encode error")) |}.
Proof.
  split; [reflexivity|].
  apply (encode_failure_delivered JSON.stringify JSON.parse big_event (VArr [VBigInt 1])).
  - reflexivity.
  - discriminate.
  - reflexivity.
  - reflexivity.
Defined.

(** X10, on the event hello with no namespace and with the default one:
    the frames are the same, and so are the packets up to the namespace. *)
Lemma encode_injective_witness :
  _encodePacket JSON.stringify hello_event
  = _encodePacket JSON.stringify hello_event_default /\
  with_default_nsp hello_event = with_default_nsp hello_event_default.
Proof.
  assert (S1 : sendable JSON.stringify JSON.parse hello_event 2)
    by sendable_by_cases.
  assert (S2 : sendable JSON.stringify JSON.parse hello_event_default 2)
    by sendable_by_cases.
  split; [reflexivity|].
  exact (encode_injective JSON.stringify JSON.parse hello_event hello_event_default
                          2 2 S1 S2 eq_refl).
Defined.

(** X11, on the documented frame of the event on /admin. *)
Lemma frame_round_trip_witness :
  wire_frame 2 (Some (str "/admin")) (Some 456%N)
             (str "[" ++ dquote ++ str "project:delete" ++ dquote ++ str ",123]")
  = project_delete_frame /\
  exists p,
    _decodePacket JSON.parse
      (wire_frame 2 (Some (str "/admin")) (Some 456%N)
                  (str "[" ++ dquote ++ str "project:delete" ++ dquote ++ str ",123]"))
    = Some p /\
    _encodePacket JSON.stringify p
    = wire_frame 2 (Some (str "/admin")) (Some 456%N)
                 (str "[" ++ dquote ++ str "project:delete" ++ dquote ++ str ",123]").
Proof.
  split; [reflexivity|].
  apply (frame_round_trip JSON.stringify JSON.parse 2 (Some (str "/admin")) (Some 456%N)).
  - vm_compute. discriminate.
  - intros x [= <-]. split; [|discriminate].
    exists (str "admin"). split; [reflexivity|]. vm_compute. intuition discriminate.
  - intros m [= <-]. reflexivity.
  - right. split.
    + eexists. eexists. split; [reflexivity|]. split; [reflexivity | discriminate].
    + exists (VArr [VStr (str "project:delete"); VNum 123]).
      split; [reflexivity|]. split; [discriminate|]. split; reflexivity.
Defined.

(** X12, on a packet of type 7. *)
Lemma unknown_type_is_encoded_witness :
  _encodePacket JSON.stringify type_seven = str "7/admin,1[]" /\
  _decodePacket JSON.parse (_encodePacket JSON.stringify type_seven)
  = Some (buildError (str "unknown packet type " ++ [(48 + 7)%N])).
Proof.
  split; [reflexivity|].
  apply (unknown_type_is_encoded JSON.stringify JSON.parse type_seven 7).
  - reflexivity.
  - vm_compute. split; discriminate.
  - intros d [= <-]. discriminate.
Defined.

(** X13, on the event with namespace /admin, id 456 and two arguments. *)
Lemma encode_then_add_witness :
  exists frame,
    encode JSON.stringify project_delete = [[frame]] /\
    add JSON.parse (VStr frame)
    = {| raised := None; decoded := [with_default_nsp project_delete] |}.
Proof.
  assert (S : sendable JSON.stringify JSON.parse project_delete 2)
    by sendable_by_computation.
  exact (encode_then_add JSON.stringify JSON.parse project_delete 2 S).
Defined.

(** X14, on the event with id 3 whose data is null. *)
Lemma null_data_not_sent_witness :
  _encodePacket JSON.stringify null_event = str "23" /\
  _encodePacket JSON.stringify null_event
  = _encodePacket JSON.stringify (without_data null_event) /\
  _decodePacket JSON.parse (_encodePacket JSON.stringify null_event)
  = Some (with_default_nsp (without_data null_event)).
Proof.
  assert (S : sendable JSON.stringify JSON.parse (without_data null_event) 2)
    by sendable_by_cases.
  split; [reflexivity|].
  exact (null_data_not_sent JSON.stringify JSON.parse null_event 2 eq_refl S).
Defined.

(** X1, on the frame 2/admin,456 with the JSON parser and with a parser
    that refuses every text. *)
Lemma add_without_payload_witness :
  snd (scan_id (snd (scan_nsp (skipn 1 (str "2/admin,456"))))) = [] /\
  add JSON.parse (VStr (str "2/admin,456"))
  = {| raised := None;
       decoded := [reference_decode (fun _ => None) (str "2/admin,456")] |} /\
  reference_decode (fun _ => None) (str "2/admin,456")
  = {| type := EVENT; nsp := Some (str "/admin"); id := Some (Num 456);
       data := None |}.
Proof.
  split; [reflexivity|]. split; [|reflexivity].
  apply (add_without_payload JSON.parse (fun _ => None) (str "2/admin,456")).
  right. reflexivity.
Defined.
